(** * AutoPelpa: the flight board of Aerolineas Argentinas at COR

    A shallow embedding of [src/app.py]: the extraction of flight records
    from the provider's payload ([process_flight_data]), the reconciliation
    of arrivals and departures by aircraft registration
    ([combine_arrivals_departures]) and the final ordering done in [main].

    Python dictionaries with a fixed set of keys are records, the set
    [processed_matriculas] is a [gset string], epoch seconds are [Z], and
    every [for] loop is a left fold of its body over the list it walks.
    The payload of the provider is read twice: as records of typed leaves,
    and as the JSON values the fetch ([get_flight_data_from_fr24]) returns,
    with a proof that the two readings agree. *)

From stdpp Require Import gmap strings list sorting.
From Stdlib Require Import ZArith String Ascii.

Set Warnings "-clear-no-such-hyp".

Open Scope string_scope.
Open Scope list_scope.
Open Scope Z_scope.

(** ** Data model *)

(** [flight_info['tipo']] is either ['Llegada'] or ['Salida'] (line 104). *)
Inductive Tipo := Llegada | Salida.

#[global] Instance Tipo_eq_dec : EqDecision Tipo.
Proof. solve_decision. Defined.

(** The dictionary built at lines 103-110. *)
Record Flight := mkFlight {
  tipo : Tipo;
  numero_vuelo : string;
  hora : string;
  aeropuerto : string;
  matricula : string;
  timestamp : Z
}.

#[global] Instance Flight_eq_dec : EqDecision Flight.
Proof. solve_decision. Defined.

(** One row of [combined_data]; its key ['matricula'] is [matricula_c] here,
    the projection [matricula] being the one of [Flight]. *)
Record Combined := mkCombined {
  llegada : string;
  salida : string;
  hora_llegada : string;
  hora_salida : string;
  origen : string;
  destino : string;
  matricula_c : string
}.

#[global] Instance Combined_eq_dec : EqDecision Combined.
Proof. solve_decision. Defined.

(** ** The reconciler, [combine_arrivals_departures] (lines 120-209) *)

(** Line 128. *)
Definition exception_vuelos : gset string :=
  {[ "AR1550"; "AR1587"; "AR1552"; "AR1551"; "AR1553" ]}.

(** The dictionary literal of lines 134-142 and 183-191. *)
Definition solo_llegada (flight : Flight) : Combined :=
  {| llegada := numero_vuelo flight;
     salida := "";
     hora_llegada := hora flight;
     hora_salida := "";
     origen := aeropuerto flight;
     destino := "";
     matricula_c := matricula flight |}.

(** The dictionary literal of lines 144-152 and 198-206. *)
Definition solo_salida (flight : Flight) : Combined :=
  {| llegada := "";
     salida := numero_vuelo flight;
     hora_llegada := "";
     hora_salida := hora flight;
     origen := "";
     destino := aeropuerto flight;
     matricula_c := matricula flight |}.

(** The dictionary literal of lines 170-178. *)
Definition pareja (arrival matching_departure : Flight) : Combined :=
  {| llegada := numero_vuelo arrival;
     salida := numero_vuelo matching_departure;
     hora_llegada := hora arrival;
     hora_salida := hora matching_departure;
     origen := aeropuerto arrival;
     destino := aeropuerto matching_departure;
     matricula_c := matricula arrival |}.

(** The two locals every loop of the function updates. *)
Record State := mkState {
  combined_data : list Combined;
  processed_matriculas : gset string
}.

(** [combined_data.append(row)] followed by [processed_matriculas.add] of
    each registration in [regs]. *)
Definition emit (st : State) (row : Combined) (regs : gset string) : State :=
  {| combined_data := combined_data st ++ [row];
     processed_matriculas := processed_matriculas st ∪ regs |}.

(** The row an exception flight is given (lines 133-152). *)
Definition fila_excepcion (flight : Flight) : Combined :=
  match tipo flight with
  | Llegada => solo_llegada flight
  | Salida => solo_salida flight
  end.

(** Body of the first loop (lines 132-153). *)
Definition exception_step (st : State) (flight : Flight) : State :=
  if decide (numero_vuelo flight ∈ exception_vuelos)
  then emit st (fila_excepcion flight) {[ matricula flight ]}
  else st.

(** The test of lines 163-165. *)
Definition is_match (processed : gset string) (arrival departure : Flight) : bool :=
  bool_decide (matricula departure = matricula arrival)
  && bool_decide (matricula departure ∉ processed)
  && bool_decide (numero_vuelo departure ∉ exception_vuelos).

(** The inner loop with its [break] (lines 161-167). *)
Definition matching_departure (processed : gset string) (departures : list Flight)
    (arrival : Flight) : option Flight :=
  List.find (is_match processed arrival) departures.

(** Body of the second loop (lines 157-192). *)
Definition matching_step (departures : list Flight) (st : State) (arrival : Flight)
    : State :=
  if bool_decide (matricula arrival ∈ processed_matriculas st)
     || bool_decide (numero_vuelo arrival ∈ exception_vuelos)
  then st
  else match matching_departure (processed_matriculas st) departures arrival with
       | Some departure =>
           emit st (pareja arrival departure)
                  ({[ matricula arrival ]} ∪ {[ matricula departure ]})
       | None => emit st (solo_llegada arrival) {[ matricula arrival ]}
       end.

(** Body of the third loop (lines 196-207). *)
Definition leftover_step (st : State) (departure : Flight) : State :=
  if bool_decide (matricula departure ∉ processed_matriculas st)
     && bool_decide (numero_vuelo departure ∉ exception_vuelos)
  then emit st (solo_salida departure) {[ matricula departure ]}
  else st.

Definition exception_pass (arrivals departures : list Flight) : State :=
  foldl exception_step (mkState [] ∅) (arrivals ++ departures).

Definition matching_pass (arrivals departures : list Flight) : State :=
  foldl (matching_step departures) (exception_pass arrivals departures) arrivals.

Definition leftover_pass (arrivals departures : list Flight) : State :=
  foldl leftover_step (matching_pass arrivals departures) departures.

Definition combine_arrivals_departures (arrivals departures : list Flight)
    : list Combined :=
  combined_data (leftover_pass arrivals departures).

(** ** The extractor, [process_flight_data] (lines 51-118) *)

(** The leaves of one provider flight object that the function reads, each
    taken after its chain of [.get(key, default)]: a key that is absent
    reads as its default, [''] for the strings and [0] for the times. *)
Record RawFlight := mkRawFlight {
  airline_iata : string;
  number_default : string;
  number_number : string;
  registration : string;
  scheduled_arrival : Z;
  scheduled_departure : Z;
  estimated_arrival : Z;
  estimated_departure : Z;
  origin_iata : string;
  destination_iata : string
}.

(** The second argument, ['arrivals'] or the other direction. *)
Inductive FlightType := arrivals_t | departures_t.

(** [s[n:]] on a string. *)
Fixpoint string_drop (n : nat) (s : string) : string :=
  match n, s with
  | O, _ => s
  | S _, EmptyString => EmptyString
  | S n', String _ s' => string_drop n' s'
  end.

(** [s.startswith(pre)]. *)
Fixpoint startswith (pre s : string) : bool :=
  match pre, s with
  | EmptyString, _ => true
  | String _ _, EmptyString => false
  | String a pre', String b s' => Ascii.eqb a b && startswith pre' s'
  end.

(** Lines 72-73. *)
Definition strip_carrier (flight_number : string) : string :=
  if startswith "AR" flight_number then string_drop 2 flight_number
  else flight_number.

(** The f-string of line 105. *)
Definition with_carrier (flight_number : string) : string :=
  "AR" +:+ flight_number.

(** Lines 72-73 followed by line 105: what the extractor does to a flight
    number between reading it and storing it. *)
Definition normalize_number (flight_number : string) : string :=
  with_carrier (strip_carrier flight_number).

(** Line 69: [default or number]; an empty string is falsy. *)
Definition raw_number (flight : RawFlight) : string :=
  if bool_decide (number_default flight = "") then number_number flight
  else number_default flight.

(** Lines 80-84. *)
Definition flight_time_of (flight_type : FlightType) (flight : RawFlight) : Z :=
  let scheduled_time :=
    match flight_type with
    | arrivals_t => scheduled_arrival flight
    | departures_t => scheduled_departure flight
    end in
  let estimated_time :=
    match flight_type with
    | arrivals_t => estimated_arrival flight
    | departures_t => estimated_departure flight
    end in
  if estimated_time =? 0 then scheduled_time else estimated_time.

(** The test of line 87, [start_timestamp <= flight_time <= end_timestamp]. *)
Definition in_window (start_timestamp end_timestamp flight_time : Z) : bool :=
  (start_timestamp <=? flight_time) && (flight_time <=? end_timestamp).

Section Extractor.

(** [datetime.fromtimestamp(t, tz=art_tz).strftime('%H:%M')] belongs to
    the datetime library: it is a parameter here, [None] standing for the
    exception the library raises on a second it cannot represent. *)
Variable strftime_art : Z → option string.

(** Body of the loop (lines 58-116): [Some] is the record appended at line
    112, [None] the [continue] of lines 65, 88 and 116. *)
Definition process_flight (flight_type : FlightType)
    (start_timestamp end_timestamp : Z) (flight : RawFlight) : option Flight :=
  if negb (String.eqb (airline_iata flight) "AR") then None
  else
    let flight_number := strip_carrier (raw_number flight) in
    let flight_time := flight_time_of flight_type flight in
    if negb (in_window start_timestamp end_timestamp flight_time) then None
    else
      let origin :=
        match flight_type with
        | arrivals_t => origin_iata flight
        | departures_t => "COR"
        end in
      let destination :=
        match flight_type with
        | arrivals_t => "COR"
        | departures_t => destination_iata flight
        end in
      match (if flight_time =? 0 then Some "" else strftime_art flight_time) with
      | None => None
      | Some time_str =>
          Some {| tipo := match flight_type with
                          | arrivals_t => Llegada
                          | departures_t => Salida
                          end;
                  numero_vuelo := with_carrier flight_number;
                  hora := time_str;
                  aeropuerto := match flight_type with
                                | arrivals_t => origin
                                | departures_t => destination
                                end;
                  matricula := registration flight;
                  timestamp := flight_time |}
      end.

Definition process_flight_data (flights : list RawFlight)
    (flight_type : FlightType) (start_timestamp end_timestamp : Z)
    : list Flight :=
  omap (process_flight flight_type start_timestamp end_timestamp) flights.

End Extractor.

(** An instance of the parameter: the clock of UTC-3 on the seconds whose
    year, both in UTC and in ART, lies between 1 and 9999. *)
Definition two_digits (n : Z) : string :=
  String (ascii_of_nat (48 + Z.to_nat (n / 10)))
    (String (ascii_of_nat (48 + Z.to_nat (n mod 10))) EmptyString).

Definition hhmm_art (t : Z) : option string :=
  if (-62135586000 <=? t) && (t <=? 253402300799)
  then let local := t - 10800 in
       Some (two_digits ((local / 3600) mod 24) +:+ ":" +:+
             two_digits ((local / 60) mod 60))
  else None.

(** ** The ordering at the end of [main] (lines 301-306) *)

(** A row of [combined_data] while [main] orders it: the seven keys of the
    reconciler and the key ['orden_temporal'], present or not. *)
Record Item := mkItem {
  fila : Combined;
  orden_temporal : option string
}.

(** Line 303; an empty string is falsy. *)
Definition set_orden_temporal (item : Item) : Item :=
  {| fila := fila item;
     orden_temporal :=
       Some (if bool_decide (hora_llegada (fila item) ≠ "")
             then hora_llegada (fila item)
             else hora_salida (fila item)) |}.

(** The key function of line 304; [None] is its [KeyError]. *)
Definition key_of (x : Item) : option (string * Item) :=
  k ← orden_temporal x; Some (k, x).

(** Line 306; [None] is the [KeyError] of deleting an absent key. *)
Definition del_orden_temporal (item : Item) : option Item :=
  _ ← orden_temporal item; Some {| fila := fila item; orden_temporal := None |}.

(** [list.sort(key=...)] compares the keys with [<] on strings and is stable:
    an element goes in front of the first one whose key is not below its
    own. *)
Fixpoint insert_keyed (x : string * Item) (l : list (string * Item))
    : list (string * Item) :=
  match l with
  | [] => [x]
  | y :: l' =>
      if String.ltb (fst y) (fst x) then y :: insert_keyed x l'
      else x :: y :: l'
  end.

Definition sort_keyed (l : list (string * Item)) : list (string * Item) :=
  foldr insert_keyed [] l.

(** Line 304: every key is computed, then the list is sorted on them. *)
Definition sort_by_orden (items : list Item) : option (list Item) :=
  keyed ← mapM key_of items; Some ((sort_keyed keyed).*2).

(** Lines 302-306. *)
Definition ordenar (combined : list Item) : option (list Item) :=
  sorted ← sort_by_orden (set_orden_temporal <$> combined);
  mapM del_orden_temporal sorted.

(** The rows as the reconciler returns them, without the key. *)
Definition sin_orden (row : Combined) : Item :=
  {| fila := row; orden_temporal := None |}.

(** [main] from line 279 on, given the clock and the two payloads. *)
Definition main_core (strftime_art : Z → option string)
    (start_timestamp end_timestamp : Z)
    (arrivals_raw departures_raw : list RawFlight) : option (list Item) :=
  let arrivals_processed :=
    process_flight_data strftime_art arrivals_raw arrivals_t
                        start_timestamp end_timestamp in
  let departures_processed :=
    process_flight_data strftime_art departures_raw departures_t
                        start_timestamp end_timestamp in
  if bool_decide (arrivals_processed = []) && bool_decide (departures_processed = [])
  then Some []
  else
    let combined_data :=
      combine_arrivals_departures arrivals_processed departures_processed in
    if bool_decide (combined_data = []) then Some []
    else ordenar (sin_orden <$> combined_data).

(** The sort key as the specification words it: the arrival time if it is
    not empty, else the departure time. *)
Definition spec_sort_key (row : Combined) : string :=
  match hora_llegada row with
  | EmptyString => hora_salida row
  | _ => hora_llegada row
  end.

(** ** Vocabulary of the statements *)

(** The exception flights of an input, in the order of the first loop. *)
Definition exception_flights (arrivals departures : list Flight) : list Flight :=
  filter (λ f, numero_vuelo f ∈ exception_vuelos) (arrivals ++ departures).

(** The first of a list to carry registration [m]. *)
Definition first_of (m : string) (l : list Flight) : option Flight :=
  List.find (λ f, bool_decide (matricula f = m)) l.

(** [new] is what a run of loop bodies appended to [st]: rows of pairwise
    distinct registrations, none of them marked in [st], all of them marked
    in [st']. *)
Definition fresh_rows (st st' : State) (new : list Combined) : Prop :=
  combined_data st' = combined_data st ++ new
  ∧ processed_matriculas st' =
     processed_matriculas st ∪ list_to_set (matricula_c <$> new)
  ∧ NoDup (matricula_c <$> new)
  ∧ (∀ r, r ∈ new → matricula_c r ∉ processed_matriculas st).

(** A row of the second loop: an ordinary arrival, alone or with an ordinary
    departure of its registration. *)
Definition matched_row (arrivals departures : list Flight) (r : Combined) : Prop :=
  ∃ a, a ∈ arrivals ∧ (numero_vuelo a ∉ exception_vuelos) ∧
    (r = solo_llegada a ∨
     ∃ d, d ∈ departures ∧ (numero_vuelo d ∉ exception_vuelos) ∧
               matricula d = matricula a ∧ r = pareja a d).

(** A row of the third loop: an ordinary departure alone. *)
Definition leftover_row (departures : list Flight) (r : Combined) : Prop :=
  ∃ d, d ∈ departures ∧ (numero_vuelo d ∉ exception_vuelos) ∧ r = solo_salida d.

(** [f] is shown by row [r]: the half of [r] on the side of the kind of [f]
    holds the number, the time and the airport of [f], and [r] carries its
    registration. *)
Definition appears_in (f : Flight) (r : Combined) : Prop :=
  matricula_c r = matricula f ∧
  match tipo f with
  | Llegada =>
      llegada r = numero_vuelo f ∧ hora_llegada r = hora f ∧ origen r = aeropuerto f
  | Salida =>
      salida r = numero_vuelo f ∧ hora_salida r = hora f ∧ destino r = aeropuerto f
  end.

#[global] Instance appears_in_dec f r : Decision (appears_in f r).
Proof. unfold appears_in. destruct (tipo f); apply _. Defined.

(** A decimal digit. *)
Definition is_digit (c : ascii) : bool :=
  (48 <=? nat_of_ascii c)%nat && (nat_of_ascii c <=? 57)%nat.

Fixpoint all_digits (s : string) : bool :=
  match s with
  | EmptyString => true
  | String c s' => is_digit c && all_digits s'
  end.

(** The canonical form: the carrier code followed by digits only. *)
Definition canonical (s : string) : bool :=
  startswith "AR" s && all_digits (string_drop 2 s).

(** A row with the key line 303 gives it, as the sort sees it. *)
Definition keyed_row (row : Combined) : string * Item :=
  (spec_sort_key row, {| fila := row; orden_temporal := Some (spec_sort_key row) |}).

Definition key_le (x y : string * Item) : Prop := String.leb (fst x) (fst y) = true.

(** ** Sample flights *)

(** The scenario of an exception arrival and an ordinary departure that
    share a registration. *)
Definition ar1550 (origin : string) (ts : Z) : Flight :=
  mkFlight Llegada "AR1550" "10:00" origin "XYZ" ts.
Definition ar300 (destination : string) (ts : Z) : Flight :=
  mkFlight Salida "AR300" "11:00" destination "XYZ" ts.

(** An arrival at 08:00 and two departures of its aircraft, the one listed
    first leaving at 20:00, the one listed second at 08:45. *)
Definition ar1500 : Flight :=
  mkFlight Llegada "AR1500" "08:00" "AEP" "LV-FUA" 1700046000.
Definition ar1507 : Flight :=
  mkFlight Salida "AR1507" "20:00" "AEP" "LV-FUA" 1700089200.
Definition ar1501 : Flight :=
  mkFlight Salida "AR1501" "08:45" "AEP" "LV-FUA" 1700048700.

(** An exception departure and an ordinary arrival, both without a
    registration. *)
Definition ar1551_blank : Flight :=
  mkFlight Salida "AR1551" "12:00" "AEP" "" 1700060400.
Definition ar1490_blank : Flight :=
  mkFlight Llegada "AR1490" "09:00" "MDZ" "" 1700049600.

(** A raw arrival of the carrier, numbered as the provider does, and the
    record the extractor makes of it. *)
Definition raw_ar1234 : RawFlight :=
  {| airline_iata := "AR";
     number_default := "AR1234";
     number_number := "1234";
     registration := "LV-FUA";
     scheduled_arrival := 1700046000;
     scheduled_departure := 1700040000;
     estimated_arrival := 0;
     estimated_departure := 0;
     origin_iata := "AEP";
     destination_iata := "COR" |}.
Definition ar1234 : Flight :=
  mkFlight Llegada "AR1234" "08:00" "AEP" "LV-FUA" 1700046000.

(** A raw flight of the carrier whose number the provider gave with the
    carrier code written twice. *)
Definition raw_arar1234 : RawFlight :=
  {| airline_iata := "AR";
     number_default := "ARAR1234";
     number_number := "";
     registration := "LV-FUA";
     scheduled_arrival := 1700046000;
     scheduled_departure := 1700040000;
     estimated_arrival := 0;
     estimated_departure := 0;
     origin_iata := "AEP";
     destination_iata := "COR" |}.

(** ** The reconciler in closed form *)

(** The flights of a list whose number is not an exception. *)
Definition ordinary_flights (l : list Flight) : list Flight :=
  filter (λ f, numero_vuelo f ∉ exception_vuelos) l.

(** The flights of [l] that are the first of their registration, the
    registrations in [seen] counting as met already. *)
Fixpoint primeros (seen : gset string) (l : list Flight) : list Flight :=
  match l with
  | [] => []
  | f :: l' =>
      if decide (matricula f ∈ seen) then primeros seen l'
      else f :: primeros (seen ∪ {[ matricula f ]}) l'
  end.

(** The row of an ordinary arrival: paired with the first ordinary departure
    of its registration, or alone. *)
Definition fila_llegada (departures : list Flight) (arrival : Flight) : Combined :=
  match List.find (λ d, bool_decide (matricula d = matricula arrival)
                        && bool_decide (numero_vuelo d ∉ exception_vuelos))
                  departures with
  | Some departure => pareja arrival departure
  | None => solo_llegada arrival
  end.

(** The registrations of a list of flights. *)
Definition matriculas (l : list Flight) : gset string :=
  list_to_set (matricula <$> l).

(** The side of a row that shows an arrival, or a departure, is blank. *)
Definition sin_llegada (r : Combined) : Prop :=
  llegada r = "" ∧ hora_llegada r = "" ∧ origen r = "".
Definition sin_salida (r : Combined) : Prop :=
  salida r = "" ∧ hora_salida r = "" ∧ destino r = "".

(** The side of row [r] that shows an arrival, or a departure, is a copy of
    flight [f], and [r] carries the registration of [f]. *)
Definition muestra_llegada (r : Combined) (f : Flight) : Prop :=
  llegada r = numero_vuelo f ∧ hora_llegada r = hora f
  ∧ origen r = aeropuerto f ∧ matricula_c r = matricula f.
Definition muestra_salida (r : Combined) (f : Flight) : Prop :=
  salida r = numero_vuelo f ∧ hora_salida r = hora f
  ∧ destino r = aeropuerto f ∧ matricula_c r = matricula f.

(** The record [rec] is what the extractor makes of the raw flight [raw]
    read in direction [flight_type] within the window. *)
Definition extracted_from (strftime_art : Z → option string)
    (flight_type : FlightType) (s e : Z) (raw : RawFlight) (rec : Flight) : Prop :=
  airline_iata raw = "AR"
  ∧ s ≤ timestamp rec ≤ e
  ∧ timestamp rec = flight_time_of flight_type raw
  ∧ tipo rec = match flight_type with arrivals_t => Llegada | departures_t => Salida end
  ∧ numero_vuelo rec = with_carrier (strip_carrier (raw_number raw))
  ∧ matricula rec = registration raw
  ∧ aeropuerto rec = match flight_type with
                     | arrivals_t => origin_iata raw
                     | departures_t => destination_iata raw
                     end
  ∧ (if timestamp rec =? 0 then hora rec = ""
     else strftime_art (timestamp rec) = Some (hora rec)).

(** ** The payload as JSON: [get_flight_data_from_fr24] (lines 23-49) and the
    field accesses of [process_flight_data] (lines 60-96) *)

(** What [response.json()] yields, for a payload whose numbers are
    integers. A dictionary is the list of its items, each key once. *)
#[local] Set Warnings "-register-all".

Inductive json :=
  | JNull
  | JBool (b : bool)
  | JInt (z : Z)
  | JStr (s : string)
  | JList (l : list json)
  | JDict (d : list (string * json)).

(** [d[k]], if the key is there. *)
Fixpoint assoc (k : string) (d : list (string * json)) : option json :=
  match d with
  | [] => None
  | (k', v) :: d' => if String.eqb k k' then Some v else assoc k d'
  end.

(** [v.get(k, default)]; [None] is the [AttributeError] of a value that is
    not a dictionary. *)
Definition get (k : string) (default : json) (v : json) : option json :=
  match v with
  | JDict d => Some (match assoc k d with Some x => x | None => default end)
  | _ => None
  end.

(** [v.get(k1, {}).get(k2, {})...], one [.get] with default [{}] per key. *)
Fixpoint get_in (keys : list string) (v : json) : option json :=
  match keys with
  | [] => Some v
  | k :: keys' =>
      match get k (JDict []) v with
      | Some v' => get_in keys' v'
      | None => None
      end
  end.

(** The truth value of [v] in an [if] or an [or]. *)
Definition truthy (v : json) : bool :=
  match v with
  | JNull => false
  | JBool b => b
  | JInt z => negb (z =? 0)
  | JStr s => negb (String.eqb s "")
  | JList l => match l with [] => false | _ => true end
  | JDict d => match d with [] => false | _ => true end
  end.

(** [v == s] for a string [s]. *)
Definition is_str (s : string) (v : json) : bool :=
  match v with
  | JStr s' => String.eqb s' s
  | _ => false
  end.

(** The values [len] accepts. *)
Definition has_len (v : json) : bool :=
  match v with
  | JStr _ | JList _ | JDict _ => true
  | JNull | JBool _ | JInt _ => false
  end.

(** What [requests.get] gave: it raised, or it returned a response with a
    status code and a body, [None] when [response.json()] raises on it. *)
Inductive Fetch :=
  | fetch_raised
  | fetch_response (status_code : Z) (body : option json).

(** Lines 34-49, on the outcome of line 36; every exception ends in the
    [return []] of line 49, also the [TypeError] of [len(flights)] at line
    41. *)
Definition get_flight_data_from_fr24 (fetch : Fetch) (flight_type : string) : json :=
  match fetch with
  | fetch_raised => JList []
  | fetch_response status_code body =>
      if status_code =? 200 then
        match
          data ← body;
          node ← get_in ["result"; "response"; "airport"; "pluginData";
                         "schedule"; flight_type] data;
          flights ← get "data" (JList []) node;
          if has_len flights then Some flights else None
        with
        | Some flights => flights
        | None => JList []
        end
      else JList []
  end.

(** The record of lines 103-110 when the registration, the airport and the
    time are whatever the payload holds. *)
Record FlightJ := mkFlightJ {
  tipo_j : Tipo;
  numero_vuelo_j : string;
  hora_j : string;
  aeropuerto_j : json;
  matricula_j : json;
  timestamp_j : json
}.

(** The string of the direction, and the key of its time (lines 80-81). *)
Definition flight_type_str (flight_type : FlightType) : string :=
  match flight_type with arrivals_t => "arrivals" | departures_t => "departures" end.
Definition time_key (flight_type : FlightType) : string :=
  match flight_type with arrivals_t => "arrival" | departures_t => "departure" end.

(** A time of the payload as the comparison of line 87 and the clock of line
    100 take it: an integer, [True] as 1 and [False] as 0. [None] is the
    [TypeError] of a value that is not a number. *)
Definition seconds_of (v : json) : option Z :=
  match v with
  | JInt z => Some z
  | JBool b => Some (Z.b2z b)
  | _ => None
  end.

(** Body of the loop (lines 58-116) on a raw flight as it comes; [None] is
    a [continue], that of line 65, of line 88, or that of the handler at
    line 116 after an [AttributeError] ([.get] or [.startswith] on a value
    without it), a [TypeError] (the comparison of line 87 on a value that is
    not a number) or an exception of the clock. *)
Definition process_flight_json (strftime_art : Z → option string)
    (flight_type : FlightType) (start_timestamp end_timestamp : Z)
    (flight : json) : option FlightJ :=
  airline ← get_in ["flight"; "airline"] flight;
  code ← get "code" (JDict []) airline;
  airline_code ← get "iata" (JStr "") code;
  if negb (is_str "AR" airline_code) then None
  else
      flight_number_data ← get_in ["flight"; "identification"; "number"] flight;
      number_default ← get "default" (JStr "") flight_number_data;
      flight_number ← (if truthy number_default then Some number_default
                       else get "number" (JStr "") flight_number_data);
      flight_number ← match flight_number with
                      | JStr s => Some (strip_carrier s)
                      | _ => None
                      end;
      aircraft ← get_in ["flight"; "aircraft"] flight;
      registration ← get "registration" (JStr "") aircraft;
      time_data ← get_in ["flight"; "time"] flight;
      scheduled ← get "scheduled" (JDict []) time_data;
      scheduled_time ← get (time_key flight_type) (JInt 0) scheduled;
      estimated ← get "estimated" (JDict []) time_data;
      estimated_time ← get (time_key flight_type) (JInt 0) estimated;
      let flight_time := if truthy estimated_time then estimated_time
                         else scheduled_time in
      seconds ← seconds_of flight_time;
      if negb (in_window start_timestamp end_timestamp seconds) then None
      else
        airport_code ← match flight_type with
                       | arrivals_t =>
                           get_in ["flight"; "airport"; "origin"; "code"] flight
                       | departures_t =>
                           get_in ["flight"; "airport"; "destination"; "code"] flight
                       end;
        airport ← get "iata" (JStr "") airport_code;
        time_str ← (if truthy flight_time then strftime_art seconds
                    else Some "");
        Some {| tipo_j := match flight_type with
                          | arrivals_t => Llegada
                          | departures_t => Salida
                          end;
                numero_vuelo_j := with_carrier flight_number;
                hora_j := time_str;
                aeropuerto_j := airport;
                matricula_j := registration;
                timestamp_j := flight_time |}.

(** What [for flight in flights] walks through, for the values line 42
    returns, those with a length: the elements of a list, the keys of a
    dictionary, the characters of a string. On a value without a length
    the [for] raises a [TypeError]; line 42 never returns one, and it has no
    elements here. *)
Fixpoint chars (s : string) : list json :=
  match s with
  | EmptyString => []
  | String c s' => JStr (String c EmptyString) :: chars s'
  end.

Definition iterate (flights : json) : list json :=
  match flights with
  | JList l => l
  | JDict d => (λ kv, JStr (fst kv)) <$> d
  | JStr s => chars s
  | JNull | JBool _ | JInt _ => []
  end.

Definition process_flight_data_json (strftime_art : Z → option string)
    (flights : json) (flight_type : FlightType)
    (start_timestamp end_timestamp : Z) : list FlightJ :=
  omap (process_flight_json strftime_art flight_type start_timestamp end_timestamp)
       (iterate flights).

(** Lines 278-279 and 282-283 of [main]: a fetch and the extraction of its
    result. *)
Definition fetch_and_process (strftime_art : Z → option string) (fetch : Fetch)
    (flight_type : FlightType) (start_timestamp end_timestamp : Z)
    : list FlightJ :=
  process_flight_data_json strftime_art
    (get_flight_data_from_fr24 fetch (flight_type_str flight_type))
    flight_type start_timestamp end_timestamp.

(** The node reached from [v] through keys that are all there. *)
Fixpoint lookup_path (keys : list string) (v : json) : option json :=
  match keys with
  | [] => Some v
  | k :: keys' =>
      match v with
      | JDict d => assoc k d ≫= lookup_path keys'
      | _ => None
      end
  end.

(** The keys line 40 goes through. *)
Definition schedule_path (flight_type : string) : list string :=
  ["result"; "response"; "airport"; "pluginData"; "schedule"; flight_type; "data"].

(** A string leaf, an integer leaf. *)
Definition str_leaf (v : json) : option string :=
  match v with JStr s => Some s | _ => None end.
Definition int_leaf (v : json) : option Z :=
  match v with JInt z => Some z | _ => None end.

(** The typed reading of a raw flight in one direction: the leaves the loop
    body reads there, a falsy default number or estimated time reading as
    [''] or [0], a leaf that is not read as its default. [None] when a node
    is not a dictionary or a leaf that is read has another type. *)
Definition decode (flight_type : FlightType) (flight : json) : option RawFlight :=
  airline ← get_in ["flight"; "airline"] flight;
  code ← get "code" (JDict []) airline;
  airline_code ← get "iata" (JStr "") code;
  airline_code ← str_leaf airline_code;
  flight_number_data ← get_in ["flight"; "identification"; "number"] flight;
  default ← get "default" (JStr "") flight_number_data;
  number_default ← (if truthy default then str_leaf default else Some "");
  number ← get "number" (JStr "") flight_number_data;
  number_number ← (if truthy default then Some "" else str_leaf number);
  aircraft ← get_in ["flight"; "aircraft"] flight;
  registration ← get "registration" (JStr "") aircraft;
  registration ← str_leaf registration;
  time_data ← get_in ["flight"; "time"] flight;
  scheduled ← get "scheduled" (JDict []) time_data;
  scheduled_time ← get (time_key flight_type) (JInt 0) scheduled;
  estimated ← get "estimated" (JDict []) time_data;
  estimated_time ← get (time_key flight_type) (JInt 0) estimated;
  estimated ← (if truthy estimated_time then int_leaf estimated_time else Some 0);
  scheduled ← (if truthy estimated_time then Some 0 else int_leaf scheduled_time);
  airport_code ← match flight_type with
                 | arrivals_t =>
                     get_in ["flight"; "airport"; "origin"; "code"] flight
                 | departures_t =>
                     get_in ["flight"; "airport"; "destination"; "code"] flight
                 end;
  airport ← get "iata" (JStr "") airport_code;
  airport ← str_leaf airport;
  Some {| airline_iata := airline_code;
          number_default := number_default;
          number_number := number_number;
          registration := registration;
          scheduled_arrival :=
            match flight_type with arrivals_t => scheduled | departures_t => 0 end;
          scheduled_departure :=
            match flight_type with arrivals_t => 0 | departures_t => scheduled end;
          estimated_arrival :=
            match flight_type with arrivals_t => estimated | departures_t => 0 end;
          estimated_departure :=
            match flight_type with arrivals_t => 0 | departures_t => estimated end;
          origin_iata :=
            match flight_type with arrivals_t => airport | departures_t => "" end;
          destination_iata :=
            match flight_type with arrivals_t => "" | departures_t => airport end |}.

(** A flight object of the provider, with the nodes the extractor reads and
    one it does not read; the aircraft of the second is [null]. *)
Definition json_ar1234 (aircraft : json) : json :=
  JDict [("flight",
    JDict [("identification",
              JDict [("number", JDict [("default", JStr "AR1234");
                                       ("alternative", JNull)])]);
           ("aircraft", aircraft);
           ("airline", JDict [("name", JStr "Aerolineas Argentinas");
                              ("code", JDict [("iata", JStr "AR");
                                              ("icao", JStr "ARG")])]);
           ("airport",
              JDict [("origin", JDict [("code", JDict [("iata", JStr "AEP")])])]);
           ("time",
              JDict [("scheduled", JDict [("departure", JInt 1700040000);
                                          ("arrival", JInt 1700046000)]);
                     ("estimated", JDict [("departure", JNull);
                                          ("arrival", JNull)])])])].

Definition aircraft_lv_fua : json :=
  JDict [("model", JDict [("code", JStr "B738")]); ("registration", JStr "LV-FUA")].

(** The flight object of the first with [t] as its estimated time of
    arrival. *)
Definition json_ar1234_at (t : json) : json :=
  JDict [("flight",
    JDict [("identification",
              JDict [("number", JDict [("default", JStr "AR1234")])]);
           ("aircraft", aircraft_lv_fua);
           ("airline", JDict [("code", JDict [("iata", JStr "AR")])]);
           ("airport",
              JDict [("origin", JDict [("code", JDict [("iata", JStr "AEP")])])]);
           ("time",
              JDict [("scheduled", JDict [("arrival", JInt 1700046000)]);
                     ("estimated", JDict [("arrival", t)])])])].

(** A record of strings as a record of JSON values. *)
Definition to_json (rec : Flight) : FlightJ :=
  {| tipo_j := tipo rec;
     numero_vuelo_j := numero_vuelo rec;
     hora_j := hora rec;
     aeropuerto_j := JStr (aeropuerto rec);
     matricula_j := JStr (matricula rec);
     timestamp_j := JInt (timestamp rec) |}.

(** The key of the airport of the other end (lines 92 and 96). *)
Definition airport_key (flight_type : FlightType) : string :=
  match flight_type with arrivals_t => "origin" | departures_t => "destination" end.

(** The nodes the loop body walks through on its way to the leaves. *)
Definition walked_paths (flight_type : FlightType) : list (list string) :=
  [ [];
    ["flight"];
    ["flight"; "airline"];
    ["flight"; "airline"; "code"];
    ["flight"; "identification"];
    ["flight"; "identification"; "number"];
    ["flight"; "aircraft"];
    ["flight"; "time"];
    ["flight"; "time"; "scheduled"];
    ["flight"; "time"; "estimated"];
    ["flight"; "airport"];
    ["flight"; "airport"; airport_key flight_type];
    ["flight"; "airport"; airport_key flight_type; "code"] ].

(** The leaf at the end of [keys], or [dflt] when a key is missing. *)
Definition leaf_or (dflt : json) (keys : list string) (flight : json) : json :=
  default dflt (lookup_path keys flight).

(** ** The window of [main] (lines 9-21 and 269-271) *)

(** A [datetime] of zone ART as its microseconds since the epoch, the
    resolution of the type. Lines 13-15: now, and now plus 24 hours. *)
Definition get_time_range (now : Z) : Z * Z :=
  let start_time := now in
  let end_time := start_time + 24 * 3600 * 1000000 in
  (start_time, end_time).

(** [int(dt.timestamp())] (lines 270-271): the seconds of [dt], the fraction
    cut off toward zero. [timestamp()] is a float, the quotient of the
    microseconds by [10**6] rounded to the nearest; below [2**33] seconds
    the spacing of the floats is under a microsecond, so that the integer
    part of that float is the whole seconds. *)
Definition int_timestamp (dt : Z) : Z := Z.quot dt 1000000.

(** Two raw arrivals of different aircraft, at 23:50 and at 00:10 of the
    next day. *)
Definition raw_2350 : RawFlight :=
  {| airline_iata := "AR";
     number_default := "AR1512";
     number_number := "1512";
     registration := "LV-FUA";
     scheduled_arrival := 1700016600;
     scheduled_departure := 0;
     estimated_arrival := 0;
     estimated_departure := 0;
     origin_iata := "AEP";
     destination_iata := "" |}.
Definition raw_0010 : RawFlight :=
  {| airline_iata := "AR";
     number_default := "AR1514";
     number_number := "1514";
     registration := "LV-GKS";
     scheduled_arrival := 1700017800;
     scheduled_departure := 0;
     estimated_arrival := 0;
     estimated_departure := 0;
     origin_iata := "AEP";
     destination_iata := "" |}.
Definition ar1512 : Flight :=
  mkFlight Llegada "AR1512" "23:50" "AEP" "LV-FUA" 1700016600.
Definition ar1514 : Flight :=
  mkFlight Llegada "AR1514" "00:10" "AEP" "LV-GKS" 1700017800.

(** A body of the provider with two arrivals, the second without aircraft,
    and the typed reading of the first. *)
Definition payload_arrivals : json :=
  JDict [("result",
    JDict [("response",
      JDict [("airport",
        JDict [("pluginData",
          JDict [("schedule",
            JDict [("arrivals",
              JDict [("item", JDict [("current", JInt 2)]);
                     ("data", JList [json_ar1234 aircraft_lv_fua;
                                     json_ar1234 JNull])])])])])])])].

Definition raw_ar1234_read : RawFlight :=
  {| airline_iata := "AR";
     number_default := "AR1234";
     number_number := "";
     registration := "LV-FUA";
     scheduled_arrival := 1700046000;
     scheduled_departure := 0;
     estimated_arrival := 0;
     estimated_departure := 0;
     origin_iata := "AEP";
     destination_iata := "" |}.

(** Closes a goal [P] that [bool_decide P] computes to [true]. *)
Ltac computed := apply (bool_decide_unpack _); vm_compute; exact I.

(** Splits a membership in a list that is written out. *)
Ltac each_of H :=
  repeat (apply elem_of_cons in H as [->|H]); [..|by apply elem_of_nil in H].

(** Names the outcome of the first bind of a hypothesis [_ = Some _]. *)
Ltac bind_Some H :=
  match type of H with
  | mbind _ ?e = Some _ =>
      let E := fresh "E" in
      destruct e eqn:E; cbn [mbind option_bind] in H; [|discriminate H]
  end.

(** One step into a hypothesis [_ = Some _]: a bind or a test. *)
Ltac step_Some H :=
  match type of H with
  | mbind _ ?e = Some _ => bind_Some H
  | (if negb ?b then None else _) = Some _ =>
      let E := fresh "E" in
      destruct b eqn:E; cbn [negb] in H; [|discriminate H]
  end.

(** Turns [str_leaf j = Some s] into [j = JStr s], and so for integers. *)
Ltac leaves :=
  repeat match goal with
         | E : str_leaf ?j = Some _ |- _ =>
             destruct j; try discriminate E; injection E as E; subst
         | E : int_leaf ?j = Some _ |- _ =>
             destruct j; try discriminate E; injection E as E; subst
         | E : Some _ = Some _ |- _ => injection E as E; subst
         end.

(** ** Auxiliary facts on lists *)

Lemma find_first {A} (p : A → bool) (l : list A) (x : A) :
  List.find p l = Some x →
  ∃ l1 l2, l = l1 ++ x :: l2 ∧ p x = true ∧ (∀ y, y ∈ l1 → p y = false).
Proof.
  induction l as [|y l IH]; simpl; [discriminate|].
  destruct (p y) eqn:Hy.
  - intros [= ->]. exists [], l. split_and!; [done|done|]. intros z Hz. inversion Hz.
  - intros Hf. destruct (IH Hf) as (l1 & l2 & -> & Hx & Hl1).
    exists (y :: l1), l2. split_and!; [done|done|].
    intros z [->|Hz]%elem_of_cons; auto.
Qed.

Lemma find_app_first {A} (p : A → bool) (l1 l2 : list A) (x : A) :
  (∀ y, y ∈ l1 → p y = false) → p x = true →
  List.find p (l1 ++ x :: l2) = Some x.
Proof.
  intros Hl1 Hx. induction l1 as [|y l1 IH]; simpl.
  - by rewrite Hx.
  - rewrite (Hl1 y) by left. apply IH. intros z Hz. apply Hl1. by right.
Qed.

Lemma find_is_Some {A} (p : A → bool) (l : list A) (x : A) :
  x ∈ l → p x = true → is_Some (List.find p l).
Proof.
  induction 1 as [x l|x y l _ IH]; simpl; intros Hx.
  - rewrite Hx. by eexists.
  - destruct (p y); [by eexists|auto].
Qed.

Lemma find_agree {A} (p q : A → bool) (l : list A) :
  (∀ x, x ∈ l → p x = q x) → List.find p l = List.find q l.
Proof.
  induction l as [|y l IH]; simpl; intros H; [done|].
  rewrite (H y) by left. destruct (q y); [done|]. apply IH. intros x Hx. apply H. by right.
Qed.

(** ** The reconciler: what each pass adds *)

(** The exception numbers are not empty. *)
Lemma empty_not_exception : "" ∉ exception_vuelos.
Proof. apply (bool_decide_unpack _). by vm_compute. Qed.

(** The first loop appends one row per exception flight, in order, and
    marks the registration of each. *)
Lemma exception_fold (l : list Flight) (st : State) :
  foldl exception_step st l =
  {| combined_data :=
       combined_data st
       ++ (fila_excepcion <$> filter (λ f, numero_vuelo f ∈ exception_vuelos) l);
     processed_matriculas :=
       processed_matriculas st
       ∪ list_to_set (matricula <$> filter (λ f, numero_vuelo f ∈ exception_vuelos) l) |}.
Proof.
  revert st. induction l as [|f l IH]; intros st; simpl.
  - destruct st as [c p]; simpl. f_equal; [by rewrite app_nil_r|set_solver].
  - rewrite IH. unfold exception_step. rewrite filter_cons.
    destruct (decide (numero_vuelo f ∈ exception_vuelos)); simpl; [|done].
    f_equal; [by rewrite <- app_assoc|set_solver].
Qed.

Lemma fresh_rows_nil st : fresh_rows st st [].
Proof.
  split_and!; simpl.
  - by rewrite app_nil_r.
  - set_solver.
  - constructor.
  - intros r Hr. inversion Hr.
Qed.

Lemma fresh_rows_emit st row regs :
  matricula_c row ∉ processed_matriculas st →
  regs = {[ matricula_c row ]} →
  fresh_rows st (emit st row regs) [row].
Proof.
  intros Hfresh ->. split_and!; simpl.
  - done.
  - set_solver.
  - apply NoDup_singleton.
  - intros r ->%list_elem_of_singleton. done.
Qed.

Lemma fresh_rows_app st st' st'' new new' :
  fresh_rows st st' new → fresh_rows st' st'' new' →
  fresh_rows st st'' (new ++ new').
Proof.
  intros (Hc & Hp & Hn & Hf) (Hc' & Hp' & Hn' & Hf'). split_and!.
  - by rewrite Hc', Hc, app_assoc.
  - rewrite Hp', Hp, fmap_app, list_to_set_app_L. set_solver.
  - rewrite fmap_app. apply NoDup_app. split_and!; [done| |done].
    intros m Hm Hm'. apply list_elem_of_fmap in Hm' as (r & -> & Hr).
    apply (Hf' r Hr). rewrite Hp. apply elem_of_union_r.
    by apply elem_of_list_to_set.
  - intros r [Hr|Hr]%elem_of_app; [by apply Hf|].
    intros Hin. apply (Hf' r Hr). rewrite Hp. by apply elem_of_union_l.
Qed.

Lemma fresh_rows_mono st st' new m :
  fresh_rows st st' new → m ∈ processed_matriculas st → m ∈ processed_matriculas st'.
Proof. intros (_ & Hp & _) Hm. rewrite Hp. by apply elem_of_union_l. Qed.

Lemma matched_row_weaken l l' departures r :
  (∀ a, a ∈ l → a ∈ l') → matched_row l departures r → matched_row l' departures r.
Proof. intros Hl (a & Ha & Hrest). exists a. split; [auto|done]. Qed.

Lemma leftover_row_weaken l l' r :
  (∀ d, d ∈ l → d ∈ l') → leftover_row l r → leftover_row l' r.
Proof. intros Hl (d & Hd & Hrest). exists d. split; [auto|done]. Qed.

Lemma is_match_true processed arrival departure :
  is_match processed arrival departure = true <->
  matricula departure = matricula arrival
  ∧ (matricula departure ∉ processed)
  ∧ numero_vuelo departure ∉ exception_vuelos.
Proof.
  unfold is_match. rewrite !andb_true_iff, !bool_decide_eq_true. tauto.
Qed.

Lemma matching_step_fresh departures st a :
  ∃ new,
    fresh_rows st (matching_step departures st a) new
    ∧ Forall (matched_row [a] departures) new
    ∧ (numero_vuelo a ∉ exception_vuelos →
        matricula a ∈ processed_matriculas (matching_step departures st a)).
Proof.
  unfold matching_step.
  destruct (bool_decide (matricula a ∈ processed_matriculas st)) eqn:Hp; simpl.
  { exists []. split_and!; [apply fresh_rows_nil|constructor|].
    intros _. by apply bool_decide_eq_true in Hp. }
  destruct (bool_decide (numero_vuelo a ∈ exception_vuelos)) eqn:He; simpl.
  { exists []. split_and!; [apply fresh_rows_nil|constructor|].
    intros Hne. by apply bool_decide_eq_true in He. }
  apply bool_decide_eq_false in Hp. apply bool_decide_eq_false in He.
  destruct (matching_departure _ _ _) as [d|] eqn:Hd.
  - apply find_first in Hd as (l1 & l2 & Hdeps & Hm & _).
    apply is_match_true in Hm as (Hreg & _ & Hne).
    exists [pareja a d]. split_and!.
    + apply fresh_rows_emit; [done|]. simpl. rewrite Hreg. set_solver.
    + constructor; [|constructor]. exists a. split_and!; [by left|done|].
      right. exists d. split_and!; [|done|done|done].
      rewrite Hdeps. apply elem_of_app. right. by left.
    + intros _. simpl. set_solver.
  - exists [solo_llegada a]. split_and!.
    + by apply fresh_rows_emit.
    + constructor; [|constructor]. exists a. split_and!; [by left|done|by left].
    + intros _. simpl. set_solver.
Qed.

Lemma matching_fold departures (l : list Flight) (st : State) :
  ∃ new,
    fresh_rows st (foldl (matching_step departures) st l) new
    ∧ Forall (matched_row l departures) new
    ∧ (∀ a, a ∈ l → numero_vuelo a ∉ exception_vuelos →
        matricula a ∈ processed_matriculas (foldl (matching_step departures) st l)).
Proof.
  revert st. induction l as [|a l IH]; intros st; simpl.
  - exists []. split_and!; [apply fresh_rows_nil|constructor|].
    intros a Ha. inversion Ha.
  - destruct (matching_step_fresh departures st a) as (n1 & Hf1 & Hr1 & Hp1).
    destruct (IH (matching_step departures st a)) as (n2 & Hf2 & Hr2 & Hp2).
    exists (n1 ++ n2). split_and!.
    + by eapply fresh_rows_app.
    + apply Forall_app. split.
      * eapply Forall_impl; [exact Hr1|]. intros r. apply matched_row_weaken.
        intros x ->%list_elem_of_singleton. by left.
      * eapply Forall_impl; [exact Hr2|]. intros r. apply matched_row_weaken.
        intros x Hx. by right.
    + intros x [->|Hx]%elem_of_cons Hne; [|by apply Hp2].
      eapply fresh_rows_mono; [exact Hf2|by apply Hp1].
Qed.

Lemma leftover_step_fresh st d :
  ∃ new,
    fresh_rows st (leftover_step st d) new
    ∧ Forall (leftover_row [d]) new
    ∧ (matricula d ∉ processed_matriculas st → numero_vuelo d ∉ exception_vuelos →
        new = [solo_salida d]).
Proof.
  unfold leftover_step.
  destruct (bool_decide (matricula d ∉ processed_matriculas st)) eqn:Hp; simpl.
  - destruct (bool_decide (numero_vuelo d ∉ exception_vuelos)) eqn:He; simpl.
    + apply bool_decide_eq_true in Hp. apply bool_decide_eq_true in He.
      exists [solo_salida d]. split_and!; [by apply fresh_rows_emit| |done].
      constructor; [|constructor]. exists d. split_and!; [by left|done|done].
    + apply bool_decide_eq_false in He.
      exists []. split_and!; [apply fresh_rows_nil|constructor|]. intros _ Hne. done.
  - apply bool_decide_eq_false in Hp.
    exists []. split_and!; [apply fresh_rows_nil|constructor|]. intros Hnp _. done.
Qed.

Lemma leftover_fold (l : list Flight) (st : State) :
  ∃ new,
    fresh_rows st (foldl leftover_step st l) new
    ∧ Forall (leftover_row l) new
    ∧ (∀ d, d ∈ l → numero_vuelo d ∉ exception_vuelos →
        matricula d ∈ processed_matriculas (foldl leftover_step st l)).
Proof.
  revert st. induction l as [|d l IH]; intros st; simpl.
  - exists []. split_and!; [apply fresh_rows_nil|constructor|].
    intros d Hd. inversion Hd.
  - destruct (leftover_step_fresh st d) as (n1 & Hf1 & Hr1 & Hp1).
    destruct (IH (leftover_step st d)) as (n2 & Hf2 & Hr2 & Hp2).
    exists (n1 ++ n2). split_and!.
    + by eapply fresh_rows_app.
    + apply Forall_app. split.
      * eapply Forall_impl; [exact Hr1|]. intros r. apply leftover_row_weaken.
        intros x ->%list_elem_of_singleton. by left.
      * eapply Forall_impl; [exact Hr2|]. intros r. apply leftover_row_weaken.
        intros x Hx. by right.
    + intros x [->|Hx]%elem_of_cons Hne; [|by apply Hp2].
      eapply fresh_rows_mono; [exact Hf2|].
      destruct (decide (matricula d ∈ processed_matriculas st)) as [Hin|Hnin].
      * eapply fresh_rows_mono; [exact Hf1|done].
      * destruct Hf1 as (_ & Hp & _). rewrite Hp, (Hp1 Hnin Hne). simpl. set_solver.
Qed.

(** ** The reconciler: the shape of its output *)

Lemma elem_of_exception_flights arrivals departures f :
  f ∈ exception_flights arrivals departures ↔
  f ∈ arrivals ++ departures ∧ numero_vuelo f ∈ exception_vuelos.
Proof. unfold exception_flights. rewrite list_elem_of_filter. tauto. Qed.

Lemma exception_pass_eq arrivals departures :
  exception_pass arrivals departures =
  {| combined_data := fila_excepcion <$> exception_flights arrivals departures;
     processed_matriculas :=
       list_to_set (matricula <$> exception_flights arrivals departures) |}.
Proof.
  unfold exception_pass. rewrite exception_fold. simpl. f_equal. set_solver.
Qed.

(** The output is the rows of the exception flights followed by rows of
    pairwise distinct registrations, none of them the registration of an
    exception flight; every ordinary flight whose registration is on no
    exception flight finds its registration among them. *)
Lemma combine_structure arrivals departures :
  ∃ rest,
    combine_arrivals_departures arrivals departures =
      (fila_excepcion <$> exception_flights arrivals departures) ++ rest
    ∧ NoDup (matricula_c <$> rest)
    ∧ Forall (λ r, (matched_row arrivals departures r ∨ leftover_row departures r)
                   ∧ matricula_c r ∉ matricula <$> exception_flights arrivals departures)
             rest
    ∧ (∀ f, f ∈ arrivals ++ departures →
            numero_vuelo f ∉ exception_vuelos →
            matricula f ∉ matricula <$> exception_flights arrivals departures →
            matricula f ∈ matricula_c <$> rest).
Proof.
  unfold combine_arrivals_departures, leftover_pass, matching_pass.
  set (st1 := exception_pass arrivals departures).
  destruct (matching_fold departures arrivals st1) as (n2 & Hf2 & Hr2 & Hp2).
  set (st2 := foldl (matching_step departures) st1 arrivals) in *.
  destruct (leftover_fold departures st2) as (n3 & Hf3 & Hr3 & Hp3).
  set (st3 := foldl leftover_step st2 departures) in *.
  pose proof (fresh_rows_app _ _ _ _ _ Hf2 Hf3) as (Hc & Hp & Hn & Hfr).
  assert (Hst1 : st1 = exception_pass arrivals departures) by done.
  rewrite exception_pass_eq in Hst1.
  exists (n2 ++ n3). split_and!.
  - rewrite Hc, Hst1. done.
  - done.
  - apply Forall_forall. intros r Hr. split.
    + apply elem_of_app in Hr as [Hr|Hr].
      * left. by eapply Forall_forall in Hr2.
      * right. by eapply Forall_forall in Hr3.
    + intros Hin. apply (Hfr r Hr). rewrite Hst1. simpl.
      by apply elem_of_list_to_set.
  - intros f Hf Hne Hnexc.
    assert (Hin : matricula f ∈ processed_matriculas st3).
    { apply elem_of_app in Hf as [Hf|Hf].
      - eapply fresh_rows_mono; [exact Hf3|]. by apply Hp2.
      - by apply Hp3. }
    rewrite Hp, Hst1 in Hin. simpl in Hin.
    apply elem_of_union in Hin as [Hin|Hin].
    + by apply elem_of_list_to_set in Hin.
    + by apply elem_of_list_to_set in Hin.
Qed.

(** An ordinary row carries no exception number. *)
Lemma ordinary_row_numbers arrivals departures r :
  matched_row arrivals departures r ∨ leftover_row departures r →
  (llegada r ∉ exception_vuelos) ∧ (salida r ∉ exception_vuelos).
Proof.
  pose proof empty_not_exception as He.
  intros [(a & _ & Ha & [->|(d & _ & Hd & _ & ->)])|(d & _ & Hd & ->)]; by simpl.
Qed.

(** A row that carries an exception number is the row of an exception
    flight; a row whose registration is on an exception flight too. *)
Lemma exception_rows_only arrivals departures r :
  r ∈ combine_arrivals_departures arrivals departures →
  llegada r ∈ exception_vuelos ∨ salida r ∈ exception_vuelos
  ∨ matricula_c r ∈ matricula <$> exception_flights arrivals departures →
  ∃ g, g ∈ exception_flights arrivals departures ∧ r = fila_excepcion g.
Proof.
  destruct (combine_structure arrivals departures) as (rest & -> & _ & Hrest & _).
  intros [Hr|Hr]%elem_of_app Hcarries.
  - apply list_elem_of_fmap in Hr as (g & -> & Hg). by exists g.
  - eapply Forall_forall in Hrest as [Hform Hreg]; [|exact Hr].
    apply ordinary_row_numbers in Hform as [Hl Hs].
    destruct Hcarries as [?|[?|?]]; done.
Qed.

(** ** Exception flights *)

(** C3. Exception isolation: a flight [f] whose number is in the exception
    set has a standalone row in the output: a row that carries the
    registration of [f] and holds its number, its time and its airport on
    the side of its kind (arrival or departure), the three fields of the
    other side empty. And every output row that shows the number of [f], as
    arrival or as departure, is such a row of a flight [g] of that number:
    its other side is empty, so that [f] is never one half of a paired row,
    whatever flights share its registration. *)
Theorem exception_isolation arrivals departures f :
  f ∈ arrivals ++ departures →
  numero_vuelo f ∈ exception_vuelos →
  (∃ r, r ∈ combine_arrivals_departures arrivals departures
        ∧ matricula_c r = matricula f
        ∧ match tipo f with
          | Llegada =>
              llegada r = numero_vuelo f ∧ hora_llegada r = hora f
              ∧ origen r = aeropuerto f
              ∧ salida r = "" ∧ hora_salida r = "" ∧ destino r = ""
          | Salida =>
              salida r = numero_vuelo f ∧ hora_salida r = hora f
              ∧ destino r = aeropuerto f
              ∧ llegada r = "" ∧ hora_llegada r = "" ∧ origen r = ""
          end)
  ∧ ∀ r, r ∈ combine_arrivals_departures arrivals departures →
         llegada r = numero_vuelo f ∨ salida r = numero_vuelo f →
         ∃ g, g ∈ arrivals ++ departures
              ∧ numero_vuelo g = numero_vuelo f
              ∧ matricula_c r = matricula g
              ∧ match tipo g with
                | Llegada =>
                    llegada r = numero_vuelo g ∧ hora_llegada r = hora g
                    ∧ origen r = aeropuerto g
                    ∧ salida r = "" ∧ hora_salida r = "" ∧ destino r = ""
                | Salida =>
                    salida r = numero_vuelo g ∧ hora_salida r = hora g
                    ∧ destino r = aeropuerto g
                    ∧ llegada r = "" ∧ hora_llegada r = "" ∧ origen r = ""
                end.
Proof.
  intros Hf Hexc. split.
  - exists (fila_excepcion f). split.
    + destruct (combine_structure arrivals departures) as (rest & -> & _).
      apply elem_of_app. left. apply list_elem_of_fmap. exists f. split; [done|].
      by apply elem_of_exception_flights.
    + unfold fila_excepcion. by destruct (tipo f).
  - intros r Hr Hshows.
    destruct (exception_rows_only arrivals departures r Hr) as (g & Hg & ->).
    { destruct Hshows as [->| ->]; auto. }
    apply elem_of_exception_flights in Hg as [Hg Hgexc].
    exists g. split; [done|]. split.
    + pose proof empty_not_exception as He.
      unfold fila_excepcion in Hshows.
      destruct (tipo g), Hshows as [Hs|Hs]; simpl in Hs; congruence.
    + unfold fila_excepcion. by destruct (tipo g).
Qed.

(** C10. When an exception flight has an empty registration, the first loop
    marks the empty string, the second loop skips every ordinary arrival of
    empty registration and pairs no departure of empty registration, the
    third loop skips every ordinary departure of empty registration, and so
    every output row of empty registration is the standalone row of an
    exception flight: no ordinary flight of empty registration produces a
    row. *)
Theorem empty_registration_consumed arrivals departures e :
  e ∈ arrivals ++ departures →
  numero_vuelo e ∈ exception_vuelos →
  matricula e = "" →
  "" ∈ processed_matriculas (exception_pass arrivals departures)
  ∧ (∀ st x, "" ∈ processed_matriculas st → matricula x = "" →
             matching_step departures st x = st
             ∧ leftover_step st x = st
             ∧ ∀ a, matching_departure (processed_matriculas st) departures a ≠ Some x)
  ∧ ∀ r, r ∈ combine_arrivals_departures arrivals departures →
         matricula_c r = "" →
         ∃ g, g ∈ arrivals ++ departures
              ∧ numero_vuelo g ∈ exception_vuelos
              ∧ matricula g = ""
              ∧ r = fila_excepcion g.
Proof.
  intros He Hexc Hreg.
  assert (Hin : "" ∈ matricula <$> exception_flights arrivals departures).
  { apply list_elem_of_fmap. exists e. split; [done|].
    by apply elem_of_exception_flights. }
  split_and!.
  - rewrite exception_pass_eq. simpl. by apply elem_of_list_to_set.
  - intros st x Hst Hx. split_and!.
    + unfold matching_step. rewrite Hx. by rewrite bool_decide_eq_true_2.
    + unfold leftover_step. rewrite Hx.
      rewrite (bool_decide_eq_false_2 ("" ∉ processed_matriculas st)); [done|].
      intros Hn. by apply Hn.
    + intros a Hfind. apply find_first in Hfind as (_ & _ & _ & Hm & _).
      apply is_match_true in Hm as (_ & Hn & _). apply Hn. by rewrite Hx.
  - intros r Hr Hr0.
    destruct (exception_rows_only arrivals departures r Hr) as (g & Hg & ->).
    { right. right. by rewrite Hr0. }
    apply elem_of_exception_flights in Hg as [Hg Hgexc].
    exists g. split_and!; [done|done| |done].
    rewrite <- Hr0. unfold fila_excepcion. by destruct (tipo g).
Qed.

(** ** Ordinary registrations *)

Lemma filter_none {A} (P : A → Prop) `{∀ x, Decision (P x)} (l : list A) :
  (∀ x, x ∈ l → ¬ P x) → filter P l = [].
Proof.
  induction l as [|y l IH]; intros Hl; [done|].
  rewrite filter_cons, decide_False by (apply Hl; left).
  apply IH. intros x Hx. apply Hl. by right.
Qed.

Lemma matched_row_registration l departures r :
  matched_row l departures r → ∃ a, a ∈ l ∧ matricula_c r = matricula a.
Proof.
  intros (a & Ha & _ & [->|(d & _ & _ & _ & ->)]); exists a; by simpl.
Qed.

(** The second loop, on the first arrival of a registration that is not
    marked yet and is on ordinary flights only, pairs it with the first
    departure of that registration. *)
Lemma matching_step_pairs departures st a0 d0 :
  matricula a0 ∉ processed_matriculas st →
  numero_vuelo a0 ∉ exception_vuelos →
  (∀ x, x ∈ departures → matricula x = matricula a0 →
        numero_vuelo x ∉ exception_vuelos) →
  first_of (matricula a0) departures = Some d0 →
  matching_step departures st a0 =
  emit st (pareja a0 d0) ({[ matricula a0 ]} ∪ {[ matricula d0 ]}).
Proof.
  intros Hp He Hord Hd0. unfold matching_step.
  rewrite bool_decide_eq_false_2, bool_decide_eq_false_2 by done. simpl.
  unfold matching_departure.
  rewrite (find_agree _ (λ f, bool_decide (matricula f = matricula a0))).
  - unfold first_of in Hd0. by rewrite Hd0.
  - intros x Hx. unfold is_match.
    destruct (decide (matricula x = matricula a0)) as [Heq|Hne].
    + rewrite !bool_decide_eq_true_2; [done| |by rewrite Heq|done].
      by apply Hord.
    + by rewrite (bool_decide_eq_false_2 _ Hne).
Qed.

(** C4. Registration exclusivity: when a registration [m] is on no exception
    flight and occurs both among the arrivals and among the departures,
    exactly one output row references [m], and it is a paired row: its
    arrival side holds the number, the time and the airport of the first
    arrival of registration [m], its departure side those of the first
    departure of registration [m]. *)
Theorem registration_exclusivity arrivals departures m a d :
  (∀ f, f ∈ arrivals ++ departures → matricula f = m →
        numero_vuelo f ∉ exception_vuelos) →
  a ∈ arrivals → matricula a = m →
  d ∈ departures → matricula d = m →
  ∃ a0 d0 r,
    first_of m arrivals = Some a0
    ∧ first_of m departures = Some d0
    ∧ filter (λ r, matricula_c r = m)
             (combine_arrivals_departures arrivals departures)
      = [r]
    ∧ matricula_c r = m
    ∧ llegada r = numero_vuelo a0 ∧ hora_llegada r = hora a0
    ∧ origen r = aeropuerto a0
    ∧ salida r = numero_vuelo d0 ∧ hora_salida r = hora d0
    ∧ destino r = aeropuerto d0.
Proof.
  intros Hord Ha Hma Hd Hmd.
  destruct (find_is_Some (λ f, bool_decide (matricula f = m)) arrivals a Ha)
    as [a0 Ha0]; [by apply bool_decide_eq_true_2|].
  destruct (find_is_Some (λ f, bool_decide (matricula f = m)) departures d Hd)
    as [d0 Hd0]; [by apply bool_decide_eq_true_2|].
  exists a0, d0, (pareja a0 d0).
  destruct (find_first _ _ _ Ha0) as (l1 & l2 & Harr & Hma0 & Hl1).
  apply bool_decide_eq_true in Hma0.
  split; [done|]. split; [done|]. split; [|by simpl].
  assert (Hexc : m ∉ matricula <$> exception_flights arrivals departures).
  { intros (g & Hg & [Hin Hgexc]%elem_of_exception_flights)%list_elem_of_fmap.
    by apply (Hord g). }
  unfold combine_arrivals_departures, leftover_pass, matching_pass.
  rewrite Harr at 2. rewrite foldl_app. simpl.
  set (st1 := exception_pass arrivals departures).
  assert (Hst1 : st1 = exception_pass arrivals departures) by done.
  rewrite exception_pass_eq in Hst1.
  destruct (matching_fold departures l1 st1) as (n1 & Hf1 & Hr1 & _).
  set (stA := foldl (matching_step departures) st1 l1) in *.
  assert (Hn1 : ∀ r, r ∈ n1 → matricula_c r ≠ m).
  { intros r Hr Hrm. eapply Forall_forall in Hr1; [|exact Hr].
    apply matched_row_registration in Hr1 as (x & Hx & Hreg).
    apply Hl1 in Hx. apply bool_decide_eq_false in Hx. congruence. }
  assert (HA : m ∉ processed_matriculas stA).
  { destruct Hf1 as (_ & -> & _). rewrite Hst1. simpl.
    intros [Hin|Hin]%elem_of_union; apply elem_of_list_to_set in Hin; [done|].
    apply list_elem_of_fmap in Hin as (r & Hrm & Hr). by apply (Hn1 r). }
  rewrite (matching_step_pairs departures stA a0 d0).
  2: by rewrite Hma0.
  2: { apply Hord; [|done]. rewrite Harr. set_solver. }
  2: { intros x Hx Hxm. apply Hord; [set_solver|congruence]. }
  2: by rewrite Hma0.
  set (stB := emit stA _ _).
  assert (HB : m ∈ processed_matriculas stB).
  { unfold stB. simpl. rewrite Hma0. set_solver. }
  destruct (matching_fold departures l2 stB) as (n3 & Hf3 & _).
  set (stC := foldl (matching_step departures) stB l2) in *.
  destruct (leftover_fold departures stC) as (n4 & Hf4 & _).
  destruct Hf4 as (-> & _ & _ & Hfr4).
  pose proof (fresh_rows_mono _ _ _ _ Hf3 HB) as HC.
  destruct Hf3 as (-> & _ & _ & Hfr3).
  unfold stB at 1. simpl.
  destruct Hf1 as (-> & _). rewrite Hst1. simpl.
  rewrite !filter_app.
  rewrite (filter_none _ (fila_excepcion <$> _)), (filter_none _ n1),
    (filter_none _ n3), (filter_none _ n4).
  - simpl. rewrite filter_cons, decide_True by done. done.
  - intros r Hr Hrm. apply (Hfr4 r Hr). by rewrite Hrm.
  - intros r Hr Hrm. apply (Hfr3 r Hr). by rewrite Hrm.
  - done.
  - intros r (g & -> & Hg)%list_elem_of_fmap Hrm. apply Hexc.
    apply list_elem_of_fmap. exists g. split; [|done].
    rewrite <- Hrm. unfold fila_excepcion. by destruct (tipo g).
Qed.

(** ** Scenarios *)

(** C1, as the code runs it. The scenario of the exception arrival AR1550
    (registration XYZ, 10:00) and the ordinary departure AR300 (registration
    XYZ, 11:00) gives one row, the arrival-only row of AR1550: the first
    loop marks XYZ, and the third loop skips AR300 for it. *)
Theorem scenario_exception_arrival origin destination ts ts' :
  combine_arrivals_departures [ar1550 origin ts] [ar300 destination ts']
  = [solo_llegada (ar1550 origin ts)].
Proof. reflexivity. Qed.

(** C1 does not hold as stated: the output is not two rows, and no row
    shows AR300. *)
Lemma scenario_exception_arrival_not_two_rows :
  ¬ (∃ r1 r2,
       combine_arrivals_departures [ar1550 "AEP" 1700053200] [ar300 "AEP" 1700056800]
       = [r1; r2])
  ∧ solo_salida (ar300 "AEP" 1700056800)
    ∉ combine_arrivals_departures [ar1550 "AEP" 1700053200] [ar300 "AEP" 1700056800].
Proof.
  assert (combine_arrivals_departures [ar1550 "AEP" 1700053200] [ar300 "AEP" 1700056800]
          = [solo_llegada (ar1550 "AEP" 1700053200)]) as -> by reflexivity.
  split.
  - intros (r1 & r2 & H). discriminate H.
  - intros H%list_elem_of_singleton. discriminate H.
Qed.

(** C2 does not hold as stated: in the scenario above the departure AR300
    is an input flight, no output row carries its number, and so the rows
    that show it are not one. *)
Lemma total_coverage_fails :
  ar300 "AEP" 1700056800 ∈ [ar1550 "AEP" 1700053200] ++ [ar300 "AEP" 1700056800]
  ∧ (∀ r, r ∈ combine_arrivals_departures
                [ar1550 "AEP" 1700053200] [ar300 "AEP" 1700056800] →
          llegada r ≠ "AR300" ∧ salida r ≠ "AR300")
  ∧ ¬ (∀ arrivals departures f,
         f ∈ arrivals ++ departures →
         List.length (filter (appears_in f)
                             (combine_arrivals_departures arrivals departures))
         = 1%nat).
Proof.
  assert (Hin : ar300 "AEP" 1700056800
                ∈ [ar1550 "AEP" 1700053200] ++ [ar300 "AEP" 1700056800])
    by (right; left).
  split_and!.
  - exact Hin.
  - assert (combine_arrivals_departures
              [ar1550 "AEP" 1700053200] [ar300 "AEP" 1700056800]
            = [solo_llegada (ar1550 "AEP" 1700053200)]) as -> by reflexivity.
    intros r ->%list_elem_of_singleton. split; discriminate.
  - intros H. specialize (H _ _ _ Hin). vm_compute in H. discriminate H.
Qed.

(** C2, as the code runs it. The output is one standalone row per exception
    flight, in the order arrivals then departures, followed by rows of
    ordinary flights whose registrations are pairwise distinct and on no
    exception flight: each of them is an ordinary arrival alone, an ordinary
    arrival paired with an ordinary departure of its registration, or an
    ordinary departure alone. Every ordinary flight whose registration is on
    no exception flight finds a row of its registration among them. So every
    exception flight has its own row and no registration of ordinary flights
    has more than one; an ordinary flight whose registration is marked before
    its turn comes is in no row. *)
Theorem coverage_by_registration arrivals departures :
  ∃ rest,
    combine_arrivals_departures arrivals departures =
      (fila_excepcion <$> exception_flights arrivals departures) ++ rest
    ∧ NoDup (matricula_c <$> rest)
    ∧ Forall (λ r, (matched_row arrivals departures r ∨ leftover_row departures r)
                   ∧ matricula_c r ∉ matricula <$> exception_flights arrivals departures)
             rest
    ∧ (∀ f, f ∈ arrivals ++ departures →
            numero_vuelo f ∉ exception_vuelos →
            matricula f ∉ matricula <$> exception_flights arrivals departures →
            matricula f ∈ matricula_c <$> rest).
Proof. exact (combine_structure arrivals departures). Qed.

(** C9. First found, in list order: when the second loop reaches an arrival
    that it does not skip, and [d] is the first departure of the list with
    the registration of the arrival, a registration not marked yet and an
    ordinary number, the arrival is paired with [d]. An arrival at 08:00
    whose aircraft leaves at 20:00 and at 08:45 is paired with the 20:00
    departure when that one is listed first. *)
Theorem first_found_in_list_order :
  (∀ departures st arrival before d after,
     matricula arrival ∉ processed_matriculas st →
     numero_vuelo arrival ∉ exception_vuelos →
     departures = before ++ d :: after →
     matricula d = matricula arrival →
     matricula d ∉ processed_matriculas st →
     numero_vuelo d ∉ exception_vuelos →
     (∀ x, x ∈ before →
           ¬ (matricula x = matricula arrival
              ∧ (matricula x ∉ processed_matriculas st)
              ∧ (numero_vuelo x ∉ exception_vuelos))) →
     matching_departure (processed_matriculas st) departures arrival = Some d
     ∧ matching_step departures st arrival =
       emit st (pareja arrival d) ({[ matricula arrival ]} ∪ {[ matricula d ]}))
  ∧ combine_arrivals_departures [ar1500] [ar1507; ar1501] = [pareja ar1500 ar1507]
  ∧ Z.abs (timestamp ar1501 - timestamp ar1500)
    < Z.abs (timestamp ar1507 - timestamp ar1500).
Proof.
  split; [|split; [reflexivity|by vm_compute]].
  intros departures st arrival before d after Hp He -> Hreg Hdp Hde Hbefore.
  assert (Hfind : matching_departure (processed_matriculas st)
                    (before ++ d :: after) arrival = Some d).
  { apply find_app_first.
    - intros x Hx. apply not_true_is_false. intros Hm%is_match_true.
      by apply (Hbefore x Hx).
    - by apply is_match_true. }
  split; [done|].
  unfold matching_step. rewrite Hfind.
  by rewrite bool_decide_eq_false_2, bool_decide_eq_false_2 by done.
Qed.

(** ** Flight numbers *)

Lemma prefix_with_carrier t : startswith "AR" (with_carrier t) = true.
Proof. reflexivity. Qed.

Lemma strip_carrier_prefixed t : strip_carrier ("AR" +:+ t) = t.
Proof. reflexivity. Qed.

Lemma digits_not_prefixed s : all_digits s = true → startswith "AR" s = false.
Proof.
  destruct s as [|a t]; [done|]. cbn [startswith all_digits].
  intros [Ha _]%andb_true_iff.
  destruct (Ascii.eqb_spec "A" a) as [<-|]; [discriminate Ha|done].
Qed.

(** What the extractor stores for a flight number it read. *)
Lemma normalize_number_cases s :
  (∀ t, s = "AR" +:+ t → normalize_number s = s)
  ∧ (startswith "AR" s = false → normalize_number s = "AR" +:+ s).
Proof.
  split.
  - intros t ->. unfold normalize_number. by rewrite strip_carrier_prefixed.
  - intros Hs. unfold normalize_number, strip_carrier. by rewrite Hs.
Qed.

Lemma process_flight_Some strftime_art flight_type s e raw rec :
  process_flight strftime_art flight_type s e raw = Some rec →
  airline_iata raw = "AR"
  ∧ in_window s e (flight_time_of flight_type raw) = true
  ∧ numero_vuelo rec = normalize_number (raw_number raw)
  ∧ matricula rec = registration raw
  ∧ timestamp rec = flight_time_of flight_type raw.
Proof.
  unfold process_flight.
  destruct (String.eqb (airline_iata raw) "AR") eqn:Hc; simpl; [|discriminate].
  apply String.eqb_eq in Hc.
  destruct (in_window s e _) eqn:Hw; simpl; [|discriminate].
  destruct (if _ =? 0 then _ else _) as [time_str|]; [|discriminate].
  intros [= <-]. by simpl.
Qed.

(** C5 does not hold as stated: the extractor accepts the flight numbered
    ARAR1234 and stores ARAR1234, which is not canonical. *)
Lemma doubly_prefixed_number_kept :
  ∃ rec,
    process_flight hhmm_art arrivals_t 1700000000 1700086400 raw_arar1234 = Some rec
    ∧ numero_vuelo rec = "ARAR1234"
    ∧ numero_vuelo rec ≠ "AR1234"
    ∧ canonical (numero_vuelo rec) = false.
Proof.
  eexists. split; [vm_compute; reflexivity|]. simpl.
  split; [done|]. split; [discriminate|by vm_compute].
Qed.

(** C5, as the code runs it. The number stored for an accepted flight is the
    carrier code followed by the number read, from which one leading carrier
    code is removed if there is one. It always starts with the carrier code;
    a number read as digits, or as the carrier code followed by digits, is
    stored in canonical form; a number read with a leading carrier code is
    stored unchanged, so ARAR1234 is stored as ARAR1234. *)
Theorem stored_flight_number strftime_art flight_type s e raw rec :
  process_flight strftime_art flight_type s e raw = Some rec →
  numero_vuelo rec = with_carrier (strip_carrier (raw_number raw))
  ∧ startswith "AR" (numero_vuelo rec) = true
  ∧ (∀ digits, all_digits digits = true →
       raw_number raw = digits ∨ raw_number raw = "AR" +:+ digits →
       numero_vuelo rec = "AR" +:+ digits ∧ canonical (numero_vuelo rec) = true)
  ∧ (∀ t, raw_number raw = "AR" +:+ t → numero_vuelo rec = raw_number raw)
  ∧ (raw_number raw = "ARAR1234" → numero_vuelo rec = "ARAR1234").
Proof.
  intros (_ & _ & Hn & _)%process_flight_Some. rewrite Hn.
  destruct (normalize_number_cases (raw_number raw)) as [Hpre Hnot].
  split_and!.
  - done.
  - apply prefix_with_carrier.
  - intros digits Hd [Hr|Hr].
    + rewrite Hnot by (rewrite Hr; by apply digits_not_prefixed).
      rewrite Hr. split; [done|]. unfold canonical. by simpl.
    + rewrite (Hpre digits Hr), Hr. split; [done|]. unfold canonical. by simpl.
  - intros t Ht. by apply (Hpre t).
  - intros Hr. by rewrite Hr.
Qed.

(** C6. Prefix idempotence: normalizing a flight number that is already
    normalized leaves it as it is; AR1234 stays AR1234, and so does not
    become ARAR1234 or 1234. *)
Theorem prefix_idempotence :
  (∀ s, normalize_number (normalize_number s) = normalize_number s)
  ∧ normalize_number "AR1234" = "AR1234"
  ∧ normalize_number "AR1234" ≠ "ARAR1234"
  ∧ normalize_number "AR1234" ≠ "1234".
Proof.
  split_and!.
  - intros s. unfold normalize_number at 1. unfold normalize_number, with_carrier.
    by rewrite strip_carrier_prefixed.
  - reflexivity.
  - discriminate.
  - discriminate.
Qed.

(** ** The time window *)

Lemma in_window_spec s e t : in_window s e t = true ↔ s ≤ t ≤ e.
Proof. unfold in_window. rewrite andb_true_iff, !Z.leb_le. tauto. Qed.

(** C7. Window inclusivity: a flight of the carrier whose time the clock
    can render is kept if and only if its effective time [t] satisfies
    [start ≤ t ≤ end]; both bounds of a window pass the test, and the second
    before [start] and the second after [end] do not. *)
Theorem window_inclusive strftime_art flight_type s e raw :
  airline_iata raw = "AR" →
  (flight_time_of flight_type raw ≠ 0 →
   is_Some (strftime_art (flight_time_of flight_type raw))) →
  (is_Some (process_flight strftime_art flight_type s e raw)
   ↔ s ≤ flight_time_of flight_type raw ≤ e)
  ∧ (in_window s e (flight_time_of flight_type raw) = true
     ↔ s ≤ flight_time_of flight_type raw ≤ e)
  ∧ (s ≤ e → in_window s e s = true ∧ in_window s e e = true)
  ∧ in_window s e (s - 1) = false
  ∧ in_window s e (e + 1) = false.
Proof.
  intros Hcarrier Hclock. split_and!.
  - rewrite <- in_window_spec. unfold process_flight.
    rewrite Hcarrier. simpl.
    destruct (in_window s e _) eqn:Hw; simpl.
    + split; [done|]. intros _.
      destruct (Z.eqb_spec (flight_time_of flight_type raw) 0) as [H0|H0].
      * by eexists.
      * destruct (Hclock H0) as [time_str ->]. by eexists.
    + split; [|done]. by intros [rec Hrec].
  - apply in_window_spec.
  - intros Hse. rewrite !in_window_spec. lia.
  - apply not_true_is_false. rewrite in_window_spec. lia.
  - apply not_true_is_false. rewrite in_window_spec. lia.
Qed.

(** ** Ordering *)

(** The key line 303 computes is the key of the specification. *)
Lemma set_orden_temporal_key item :
  orden_temporal (set_orden_temporal item) = Some (spec_sort_key (fila item)).
Proof.
  unfold set_orden_temporal, spec_sort_key. simpl.
  destruct (hora_llegada (fila item)); [done|].
  by rewrite bool_decide_eq_true_2.
Qed.

Lemma set_orden_temporal_eq item :
  set_orden_temporal item
  = {| fila := fila item; orden_temporal := Some (spec_sort_key (fila item)) |}.
Proof.
  unfold set_orden_temporal, spec_sort_key.
  destruct (hora_llegada (fila item)); [done|].
  by rewrite bool_decide_eq_true_2.
Qed.

Lemma ltb_leb s1 s2 : String.ltb s1 s2 = true → String.leb s1 s2 = true.
Proof. unfold String.ltb, String.leb. by destruct (String.compare s1 s2). Qed.

Lemma not_ltb_leb s1 s2 : String.ltb s1 s2 = false → String.leb s2 s1 = true.
Proof.
  unfold String.ltb, String.leb. rewrite (String.compare_antisym s1 s2).
  by destruct (String.compare s2 s1).
Qed.

Lemma insert_keyed_Permutation x l : insert_keyed x l ≡ₚ x :: l.
Proof.
  induction l as [|y l IH]; simpl; [done|].
  destruct (String.ltb (fst y) (fst x)); [|done].
  rewrite IH. apply Permutation_swap.
Qed.

Lemma sort_keyed_Permutation l : sort_keyed l ≡ₚ l.
Proof.
  induction l as [|x l IH]; simpl; [done|].
  rewrite insert_keyed_Permutation. by rewrite IH.
Qed.

Lemma insert_keyed_HdRel x y l :
  key_le y x → HdRel key_le y l → HdRel key_le y (insert_keyed x l).
Proof.
  intros Hyx Hl. destruct l as [|z l]; simpl.
  - by constructor.
  - destruct (String.ltb (fst z) (fst x)); constructor; [|done].
    by apply HdRel_inv in Hl.
Qed.

Lemma insert_keyed_Sorted x l : Sorted key_le l → Sorted key_le (insert_keyed x l).
Proof.
  induction 1 as [|y l Hs IH Hd]; simpl.
  - by repeat constructor.
  - destruct (String.ltb (fst y) (fst x)) eqn:Hlt.
    + constructor; [done|]. apply insert_keyed_HdRel; [|done]. by apply ltb_leb.
    + constructor; [by constructor|]. constructor. by apply not_ltb_leb.
Qed.

Lemma sort_keyed_Sorted l : Sorted key_le (sort_keyed l).
Proof.
  induction l as [|x l IH]; simpl; [constructor|]. by apply insert_keyed_Sorted.
Qed.

Lemma mapM_key_of (combined : list Combined) :
  mapM key_of (set_orden_temporal <$> (sin_orden <$> combined))
  = Some (keyed_row <$> combined).
Proof.
  apply mapM_Some_2. induction combined as [|row l IH]; simpl; [constructor|].
  constructor; [|done].
  unfold key_of. by rewrite set_orden_temporal_eq.
Qed.

Lemma Sorted_of_fmap {A B} (f : A → B) (R : relation B) (l : list A) :
  Sorted R (f <$> l) → Sorted (λ x y, R (f x) (f y)) l.
Proof.
  induction l as [|x l IH]; simpl; [constructor|].
  intros [Hs Hd]%Sorted_inv. constructor; [auto|].
  destruct l; simpl in *; constructor. by apply HdRel_inv in Hd.
Qed.

(** What lines 302-306 return on the rows of the reconciler. *)
Lemma ordenar_eq (combined : list Combined) :
  ∃ rows,
    ordenar (sin_orden <$> combined) = Some (sin_orden <$> rows)
    ∧ rows ≡ₚ combined
    ∧ Sorted (λ r1 r2, String.leb (spec_sort_key r1) (spec_sort_key r2) = true) rows.
Proof.
  set (sorted := sort_keyed (keyed_row <$> combined)).
  assert (Hperm : sorted ≡ₚ keyed_row <$> combined) by apply sort_keyed_Permutation.
  assert (Hshape : Forall (λ p, p = keyed_row (fila p.2)) sorted).
  { rewrite Hperm. apply Forall_fmap, Forall_forall. by intros row _. }
  assert (Hsorted : sorted = keyed_row <$> ((fila ∘ snd) <$> sorted)).
  { clear Hperm.
    induction Hshape as [|p l Hp _ IH]; simpl; [done|]. by f_equal. }
  exists ((fila ∘ snd) <$> sorted). split_and!.
  - unfold ordenar, sort_by_orden. rewrite mapM_key_of. simpl. fold sorted.
    apply mapM_Some_2. clear Hperm Hsorted.
    induction Hshape as [|p l Hp _ IH]; simpl; [constructor|].
    constructor; [|done]. rewrite Hp. done.
  - rewrite Hperm, <- list_fmap_compose. clear.
    induction combined as [|row l IH]; simpl; [done|]. by constructor.
  - apply (Sorted_of_fmap keyed_row key_le). rewrite <- Hsorted.
    apply sort_keyed_Sorted.
Qed.

(** C8. Ordering: line 303 gives every row the key of the specification,
    its arrival time if that is not empty and its departure time otherwise;
    lines 302-306 raise no error and return the same rows, non-decreasing in
    the lexical order of their keys and without the key ['orden_temporal'];
    so does [main], whatever the payloads and the window. *)
Theorem output_ordered :
  (∀ item, orden_temporal (set_orden_temporal item)
           = Some (spec_sort_key (fila item)))
  ∧ (∀ combined, ∃ out,
       ordenar (sin_orden <$> combined) = Some out
       ∧ fila <$> out ≡ₚ combined
       ∧ Sorted (λ r1 r2, String.leb (spec_sort_key r1) (spec_sort_key r2) = true)
                (fila <$> out)
       ∧ Forall (λ item, orden_temporal item = None) out)
  ∧ (∀ strftime_art s e arrivals_raw departures_raw, ∃ out,
       main_core strftime_art s e arrivals_raw departures_raw = Some out
       ∧ Sorted (λ r1 r2, String.leb (spec_sort_key r1) (spec_sort_key r2) = true)
                (fila <$> out)
       ∧ Forall (λ item, orden_temporal item = None) out).
Proof.
  assert (Hfila : ∀ rows : list Combined, fila <$> (sin_orden <$> rows) = rows).
  { intros rows. induction rows as [|row l IH]; simpl; [done|]. by f_equal. }
  assert (Hnone : ∀ rows : list Combined,
             Forall (λ item, orden_temporal item = None) (sin_orden <$> rows)).
  { intros rows. apply Forall_fmap, Forall_forall. by intros row _. }
  split_and!.
  - apply set_orden_temporal_key.
  - intros combined. destruct (ordenar_eq combined) as (rows & Ho & Hp & Hs).
    exists (sin_orden <$> rows). rewrite Hfila. done.
  - intros strftime_art s e arrivals_raw departures_raw. unfold main_core.
    destruct (_ && _); [exists []; split_and!; [done|constructor|constructor]|].
    destruct (bool_decide _); [exists []; split_and!; [done|constructor|constructor]|].
    destruct (ordenar_eq (combine_arrivals_departures
        (process_flight_data strftime_art arrivals_raw arrivals_t s e)
        (process_flight_data strftime_art departures_raw departures_t s e)))
      as (rows & Ho & Hp & Hs).
    exists (sin_orden <$> rows). rewrite Hfila. done.
Qed.

(** ** The theorems at the sample flights *)

Lemma exception_isolation_witness :
  ar1550 "AEP" 1700053200
    ∈ [ar1550 "AEP" 1700053200] ++ [ar300 "AEP" 1700056800]
  ∧ numero_vuelo (ar1550 "AEP" 1700053200) ∈ exception_vuelos
  ∧ ∃ r, r ∈ combine_arrivals_departures
               [ar1550 "AEP" 1700053200] [ar300 "AEP" 1700056800]
         ∧ matricula_c r = "XYZ"
         ∧ llegada r = "AR1550" ∧ hora_llegada r = "10:00" ∧ origen r = "AEP"
         ∧ salida r = "" ∧ hora_salida r = "" ∧ destino r = "".
Proof.
  assert (H1 : ar1550 "AEP" 1700053200
               ∈ [ar1550 "AEP" 1700053200] ++ [ar300 "AEP" 1700056800]) by left.
  assert (H2 : numero_vuelo (ar1550 "AEP" 1700053200) ∈ exception_vuelos) by computed.
  split; [exact H1|]. split; [exact H2|].
  exact (proj1 (exception_isolation _ _ _ H1 H2)).
Defined.

Lemma empty_registration_consumed_witness :
  ar1551_blank ∈ [ar1490_blank] ++ [ar1551_blank]
  ∧ numero_vuelo ar1551_blank ∈ exception_vuelos
  ∧ matricula ar1551_blank = ""
  ∧ "" ∈ processed_matriculas (exception_pass [ar1490_blank] [ar1551_blank])
  ∧ ∀ r, r ∈ combine_arrivals_departures [ar1490_blank] [ar1551_blank] →
         matricula_c r = "" →
         ∃ g, g ∈ [ar1490_blank] ++ [ar1551_blank]
              ∧ numero_vuelo g ∈ exception_vuelos
              ∧ matricula g = ""
              ∧ r = fila_excepcion g.
Proof.
  assert (H1 : ar1551_blank ∈ [ar1490_blank] ++ [ar1551_blank]) by (right; left).
  assert (H2 : numero_vuelo ar1551_blank ∈ exception_vuelos) by computed.
  assert (H3 : matricula ar1551_blank = "") by reflexivity.
  split; [exact H1|]. split; [exact H2|]. split; [exact H3|].
  destruct (empty_registration_consumed _ _ _ H1 H2 H3) as (Hmarked & _ & Hrows).
  split; [exact Hmarked|exact Hrows].
Defined.

Lemma registration_exclusivity_witness :
  (∀ f, f ∈ [ar1500] ++ [ar1507; ar1501] → matricula f = "LV-FUA" →
        numero_vuelo f ∉ exception_vuelos)
  ∧ ar1500 ∈ [ar1500] ∧ matricula ar1500 = "LV-FUA"
  ∧ ar1501 ∈ [ar1507; ar1501] ∧ matricula ar1501 = "LV-FUA"
  ∧ ∃ a0 d0 r,
      first_of "LV-FUA" [ar1500] = Some a0
      ∧ first_of "LV-FUA" [ar1507; ar1501] = Some d0
      ∧ filter (λ r, matricula_c r = "LV-FUA")
               (combine_arrivals_departures [ar1500] [ar1507; ar1501])
        = [r]
      ∧ matricula_c r = "LV-FUA"
      ∧ llegada r = numero_vuelo a0 ∧ hora_llegada r = hora a0
      ∧ origen r = aeropuerto a0
      ∧ salida r = numero_vuelo d0 ∧ hora_salida r = hora d0
      ∧ destino r = aeropuerto d0.
Proof.
  assert (H1 : ∀ f, f ∈ [ar1500] ++ [ar1507; ar1501] → matricula f = "LV-FUA" →
                    numero_vuelo f ∉ exception_vuelos).
  { intros f Hf _. simpl in Hf. each_of Hf; computed. }
  assert (H2 : ar1500 ∈ [ar1500]) by left.
  assert (H3 : matricula ar1500 = "LV-FUA") by reflexivity.
  assert (H4 : ar1501 ∈ [ar1507; ar1501]) by (right; left).
  assert (H5 : matricula ar1501 = "LV-FUA") by reflexivity.
  split; [exact H1|]. split; [exact H2|]. split; [exact H3|].
  split; [exact H4|]. split; [exact H5|].
  exact (registration_exclusivity _ _ _ _ _ H1 H2 H3 H4 H5).
Defined.

Lemma coverage_by_registration_witness :
  ∃ rest,
    combine_arrivals_departures [ar1500] [ar1507; ar1501] =
      (fila_excepcion <$> exception_flights [ar1500] [ar1507; ar1501]) ++ rest
    ∧ NoDup (matricula_c <$> rest)
    ∧ matricula ar1501 ∈ matricula_c <$> rest.
Proof.
  destruct (coverage_by_registration [ar1500] [ar1507; ar1501])
    as (rest & Heq & Hnodup & _ & Hcov).
  exists rest. split; [exact Heq|]. split; [exact Hnodup|].
  apply Hcov.
  - right. right. left.
  - computed.
  - computed.
Defined.

Lemma first_found_in_list_order_witness :
  (matricula ar1500 ∉ processed_matriculas (mkState [] ∅))
  ∧ (numero_vuelo ar1500 ∉ exception_vuelos)
  ∧ [ar1507; ar1501] = [] ++ ar1507 :: [ar1501]
  ∧ matricula ar1507 = matricula ar1500
  ∧ (matricula ar1507 ∉ processed_matriculas (mkState [] ∅))
  ∧ (numero_vuelo ar1507 ∉ exception_vuelos)
  ∧ matching_departure (processed_matriculas (mkState [] ∅)) [ar1507; ar1501] ar1500
    = Some ar1507.
Proof.
  assert (H1 : matricula ar1500 ∉ processed_matriculas (mkState [] ∅)) by computed.
  assert (H2 : numero_vuelo ar1500 ∉ exception_vuelos) by computed.
  assert (H3 : [ar1507; ar1501] = [] ++ ar1507 :: [ar1501]) by reflexivity.
  assert (H4 : matricula ar1507 = matricula ar1500) by reflexivity.
  assert (H5 : matricula ar1507 ∉ processed_matriculas (mkState [] ∅)) by computed.
  assert (H6 : numero_vuelo ar1507 ∉ exception_vuelos) by computed.
  assert (H7 : ∀ x, x ∈ @nil Flight →
                    ¬ (matricula x = matricula ar1500
                       ∧ (matricula x ∉ processed_matriculas (mkState [] ∅))
                       ∧ (numero_vuelo x ∉ exception_vuelos))).
  { intros x Hx. by apply elem_of_nil in Hx. }
  split; [exact H1|]. split; [exact H2|]. split; [exact H3|]. split; [exact H4|].
  split; [exact H5|]. split; [exact H6|].
  exact (proj1 (proj1 first_found_in_list_order _ _ _ _ _ _ H1 H2 H3 H4 H5 H6 H7)).
Defined.

Lemma stored_flight_number_witness :
  process_flight hhmm_art arrivals_t 1700000000 1700086400 raw_ar1234 = Some ar1234
  ∧ numero_vuelo ar1234 = with_carrier (strip_carrier (raw_number raw_ar1234))
  ∧ startswith "AR" (numero_vuelo ar1234) = true.
Proof.
  assert (H1 : process_flight hhmm_art arrivals_t 1700000000 1700086400 raw_ar1234
               = Some ar1234) by (vm_compute; reflexivity).
  split; [exact H1|].
  destruct (stored_flight_number _ _ _ _ _ _ H1) as (Hn & Hp & _).
  split; [exact Hn|exact Hp].
Defined.

Lemma window_inclusive_witness :
  airline_iata raw_ar1234 = "AR"
  ∧ (flight_time_of arrivals_t raw_ar1234 ≠ 0 →
     is_Some (hhmm_art (flight_time_of arrivals_t raw_ar1234)))
  ∧ (is_Some (process_flight hhmm_art arrivals_t 1700046000 1700132400 raw_ar1234)
     ↔ 1700046000 ≤ flight_time_of arrivals_t raw_ar1234 ≤ 1700132400)
  ∧ in_window 1700046000 1700132400 (1700046000 - 1) = false.
Proof.
  assert (H1 : airline_iata raw_ar1234 = "AR") by reflexivity.
  assert (H2 : flight_time_of arrivals_t raw_ar1234 ≠ 0 →
               is_Some (hhmm_art (flight_time_of arrivals_t raw_ar1234))).
  { intros _. exists "08:00". vm_compute. reflexivity. }
  split; [exact H1|]. split; [exact H2|].
  destruct (window_inclusive hhmm_art arrivals_t 1700046000 1700132400 raw_ar1234 H1 H2)
    as (Hkept & _ & _ & Hbefore & _).
  split; [exact Hkept|exact Hbefore].
Defined.

(** ** The reconciler in closed form *)

Lemma matching_departure_fresh processed departures a :
  matricula a ∉ processed →
  matching_departure processed departures a =
  List.find (λ d, bool_decide (matricula d = matricula a)
                  && bool_decide (numero_vuelo d ∉ exception_vuelos))
            departures.
Proof.
  intros Hp. apply find_agree. intros d _. unfold is_match.
  destruct (decide (matricula d = matricula a)) as [Heq|Hne].
  - rewrite (bool_decide_eq_true_2 _ Heq). simpl.
    rewrite (bool_decide_eq_true_2 (matricula d ∉ processed)); [done|].
    by rewrite Heq.
  - by rewrite (bool_decide_eq_false_2 _ Hne).
Qed.

Lemma State_eq c c' (p p' : gset string) :
  c = c' → p = p' → mkState c p = mkState c' p'.
Proof. by intros -> ->. Qed.

Lemma matching_step_skip departures st a :
  matricula a ∈ processed_matriculas st ∨ numero_vuelo a ∈ exception_vuelos →
  matching_step departures st a = st.
Proof.
  intros H. unfold matching_step.
  destruct H as [H|H]; rewrite (bool_decide_eq_true_2 _ H);
    [done|by rewrite orb_true_r].
Qed.

Lemma matching_step_emit departures st a :
  matricula a ∉ processed_matriculas st →
  numero_vuelo a ∉ exception_vuelos →
  matching_step departures st a =
  {| combined_data := combined_data st ++ [fila_llegada departures a];
     processed_matriculas := processed_matriculas st ∪ {[ matricula a ]} |}.
Proof.
  intros Hp He. unfold matching_step.
  rewrite (bool_decide_eq_false_2 _ Hp), (bool_decide_eq_false_2 _ He). simpl.
  rewrite (matching_departure_fresh _ departures a Hp). unfold fila_llegada.
  destruct (List.find _ departures) as [d|] eqn:Hd; [|done].
  apply find_first in Hd as (_ & _ & _ & Hm & _).
  apply andb_true_iff in Hm as [Hreg%bool_decide_eq_true _].
  unfold emit. apply State_eq; [done|]. rewrite Hreg. set_solver.
Qed.

Lemma matching_fold_eq departures (l : list Flight) (st : State) :
  foldl (matching_step departures) st l =
  {| combined_data :=
       combined_data st
       ++ (fila_llegada departures
             <$> primeros (processed_matriculas st) (ordinary_flights l));
     processed_matriculas :=
       processed_matriculas st ∪ matriculas (ordinary_flights l) |}.
Proof.
  revert st. induction l as [|a l IH]; intros st; simpl.
  - destruct st as [c p]. apply State_eq; [by rewrite app_nil_r|].
    unfold matriculas. set_solver.
  - rewrite IH. clear IH. unfold ordinary_flights, matriculas.
    rewrite filter_cons.
    destruct (decide (numero_vuelo a ∉ exception_vuelos)) as [Hord|Hexc].
    + cbn [primeros]. rewrite fmap_cons, list_to_set_cons.
      destruct (decide (matricula a ∈ processed_matriculas st)) as [Hin|Hnin].
      * rewrite matching_step_skip by auto. apply State_eq; [done|set_solver].
      * rewrite matching_step_emit by done. cbn [combined_data processed_matriculas].
        rewrite fmap_cons.
        apply State_eq; [by rewrite <- app_assoc|set_solver].
    + rewrite matching_step_skip; [done|]. right. by apply dec_stable.
Qed.

Lemma leftover_fold_eq (l : list Flight) (st : State) :
  foldl leftover_step st l =
  {| combined_data :=
       combined_data st
       ++ (solo_salida <$> primeros (processed_matriculas st) (ordinary_flights l));
     processed_matriculas :=
       processed_matriculas st ∪ matriculas (ordinary_flights l) |}.
Proof.
  revert st. induction l as [|d l IH]; intros st; simpl.
  - destruct st as [c p]. apply State_eq; [by rewrite app_nil_r|].
    unfold matriculas. set_solver.
  - rewrite IH. clear IH. unfold leftover_step, ordinary_flights, matriculas.
    rewrite filter_cons.
    destruct (decide (numero_vuelo d ∉ exception_vuelos)) as [Hord|Hexc].
    + rewrite (bool_decide_eq_true_2 _ Hord), andb_true_r.
      cbn [primeros]. rewrite fmap_cons, list_to_set_cons.
      destruct (decide (matricula d ∈ processed_matriculas st)) as [Hin|Hnin].
      * rewrite (bool_decide_eq_false_2 (matricula d ∉ processed_matriculas st))
          by (intros H; by apply H).
        apply State_eq; [done|set_solver].
      * rewrite (bool_decide_eq_true_2 _ Hnin).
        cbn [emit combined_data processed_matriculas]. rewrite fmap_cons.
        apply State_eq; [by rewrite <- app_assoc|set_solver].
    + rewrite (bool_decide_eq_false_2 _ Hexc), andb_false_r. done.
Qed.

(** The three loops as one expression. *)
Lemma combine_eq arrivals departures :
  combine_arrivals_departures arrivals departures =
  (fila_excepcion <$> exception_flights arrivals departures)
  ++ (fila_llegada departures
        <$> primeros (matriculas (exception_flights arrivals departures))
                     (ordinary_flights arrivals))
  ++ (solo_salida
        <$> primeros (matriculas (exception_flights arrivals departures)
                      ∪ matriculas (ordinary_flights arrivals))
                     (ordinary_flights departures)).
Proof.
  unfold combine_arrivals_departures, leftover_pass, matching_pass.
  rewrite leftover_fold_eq, matching_fold_eq, exception_pass_eq. simpl.
  by rewrite <- app_assoc.
Qed.

(** X1. The three loops in closed form: the rows of the exception flights;
    then, for the first ordinary arrival of each registration that is on no
    exception flight, its row with the first ordinary departure of that
    registration, or alone; then the first ordinary departure of each
    registration that is on no exception flight and on no ordinary arrival,
    alone. *)
Theorem combine_closed_form arrivals departures :
  combine_arrivals_departures arrivals departures =
  (fila_excepcion <$> exception_flights arrivals departures)
  ++ (fila_llegada departures
        <$> primeros (matriculas (exception_flights arrivals departures))
                     (ordinary_flights arrivals))
  ++ (solo_salida
        <$> primeros (matriculas (exception_flights arrivals departures)
                      ∪ matriculas (ordinary_flights arrivals))
                     (ordinary_flights departures)).
Proof. apply combine_eq. Qed.

Lemma elem_of_primeros seen l x :
  x ∈ primeros seen l → x ∈ l ∧ matricula x ∉ seen.
Proof.
  revert seen. induction l as [|f l IH]; intros seen; simpl.
  - intros H. by apply elem_of_nil in H.
  - destruct (decide (matricula f ∈ seen)) as [Hin|Hnin].
    + intros [Hx Hs]%IH. split; [by right|done].
    + intros [->|[Hx Hs]%IH]%elem_of_cons; [split; [by left|done]|].
      split; [by right|]. set_solver.
Qed.

Lemma primeros_length seen l : (List.length (primeros seen l) ≤ List.length l)%nat.
Proof.
  revert seen. induction l as [|f l IH]; intros seen; simpl; [done|].
  destruct (decide (matricula f ∈ seen)); simpl.
  - specialize (IH seen). lia.
  - specialize (IH (seen ∪ {[matricula f]})). lia.
Qed.

Lemma primeros_NoDup seen l : NoDup (matricula <$> primeros seen l).
Proof.
  revert seen. induction l as [|f l IH]; intros seen; simpl; [constructor|].
  destruct (decide (matricula f ∈ seen)); [done|].
  rewrite fmap_cons. constructor; [|done].
  intros (x & Heq & [_ Hx]%elem_of_primeros)%list_elem_of_fmap. set_solver.
Qed.

Lemma primeros_matriculas seen l :
  seen ∪ matriculas (primeros seen l) = seen ∪ matriculas l.
Proof.
  unfold matriculas. revert seen. induction l as [|f l IH]; intros seen; simpl; [done|].
  destruct (decide (matricula f ∈ seen)) as [Hin|Hnin].
  - rewrite IH. set_solver.
  - rewrite fmap_cons, list_to_set_cons.
    specialize (IH (seen ∪ {[matricula f]})). set_solver.
Qed.

Lemma primeros_all seen l :
  NoDup (matricula <$> l) → (∀ x, x ∈ l → matricula x ∉ seen) →
  primeros seen l = l.
Proof.
  revert seen. induction l as [|f l IH]; intros seen Hnd Hseen; simpl; [done|].
  rewrite fmap_cons in Hnd. apply NoDup_cons in Hnd as [Hf Hnd].
  rewrite decide_False by (apply Hseen; left). f_equal.
  apply IH; [done|]. intros x Hx.
  assert (matricula x ≠ matricula f).
  { intros Heq. apply Hf. rewrite <- Heq. apply list_elem_of_fmap. by exists x. }
  assert (matricula x ∉ seen) by (apply Hseen; by right). set_solver.
Qed.

Lemma fila_llegada_matricula departures a :
  matricula_c (fila_llegada departures a) = matricula a.
Proof. unfold fila_llegada. by destruct (List.find _ _). Qed.

Lemma fila_excepcion_matricula f : matricula_c (fila_excepcion f) = matricula f.
Proof. unfold fila_excepcion. by destruct (tipo f). Qed.

Lemma flights_split (l : list Flight) :
  matriculas l =
  matriculas (filter (λ f, numero_vuelo f ∈ exception_vuelos) l)
  ∪ matriculas (ordinary_flights l)
  ∧ List.length l =
    (List.length (filter (λ f, numero_vuelo f ∈ exception_vuelos) l)
     + List.length (ordinary_flights l))%nat.
Proof.
  unfold matriculas, ordinary_flights.
  induction l as [|f l [IHm IHl]]; [split; [set_solver|done]|].
  rewrite !filter_cons.
  destruct (decide (numero_vuelo f ∈ exception_vuelos)) as [He|He].
  - rewrite decide_False by (intros H; by apply H).
    rewrite !fmap_cons, !list_to_set_cons, IHm. split; [|simpl; lia].
    by rewrite (assoc_L (∪)).
  - rewrite decide_True by done.
    rewrite !fmap_cons, !list_to_set_cons, IHm. split; [|simpl; lia].
    rewrite !(assoc_L (∪)). f_equal. apply (comm_L (∪)).
Qed.

Lemma matriculas_rows (g : Flight → Combined) (l : list Flight) :
  (∀ f, matricula_c (g f) = matricula f) →
  list_to_set (matricula_c <$> (g <$> l)) =@{gset string} matriculas l.
Proof.
  intros Hg. unfold matriculas. induction l as [|f l IH]; [done|].
  rewrite !fmap_cons, !list_to_set_cons, Hg, IH. done.
Qed.

Lemma matriculas_app l1 l2 : matriculas (l1 ++ l2) = matriculas l1 ∪ matriculas l2.
Proof. unfold matriculas. by rewrite fmap_app, list_to_set_app_L. Qed.

Lemma combine_matriculas arrivals departures :
  list_to_set (matricula_c <$> combine_arrivals_departures arrivals departures)
  =@{gset string} matriculas (arrivals ++ departures).
Proof.
  rewrite combine_eq.
  set (E := exception_flights arrivals departures).
  rewrite !fmap_app, !list_to_set_app_L.
  rewrite (matriculas_rows fila_excepcion) by apply fila_excepcion_matricula.
  rewrite (matriculas_rows (fila_llegada departures))
    by apply fila_llegada_matricula.
  rewrite (matriculas_rows solo_salida) by done.
  pose proof (primeros_matriculas (matriculas E) (ordinary_flights arrivals)) as HA.
  pose proof (primeros_matriculas
                (matriculas E ∪ matriculas (ordinary_flights arrivals))
                (ordinary_flights departures)) as HD.
  destruct (flights_split (arrivals ++ departures)) as [-> _].
  fold (exception_flights arrivals departures). fold E.
  assert (Hord : ordinary_flights (arrivals ++ departures)
                 = ordinary_flights arrivals ++ ordinary_flights departures)
    by apply filter_app.
  rewrite Hord, matriculas_app.
  rewrite (assoc_L (∪) (matriculas E)), HA, HD. by rewrite (assoc_L (∪)).
Qed.

(** X2. The registrations of the output rows are the registrations of the
    input flights: every aircraft of the input has a row, and no row carries
    an aircraft that is not in the input. *)
Theorem output_registrations arrivals departures :
  list_to_set (matricula_c <$> combine_arrivals_departures arrivals departures)
  =@{gset string} matriculas (arrivals ++ departures).
Proof. apply combine_matriculas. Qed.

Lemma matriculas_empty (l : list Flight) : matriculas l = ∅ → l = [].
Proof.
  destruct l as [|f l]; [done|]. unfold matriculas.
  rewrite fmap_cons, list_to_set_cons. set_solver.
Qed.

Lemma combine_nil_iff arrivals departures :
  combine_arrivals_departures arrivals departures = [] ↔
  arrivals = [] ∧ departures = [].
Proof.
  split.
  - intros Hnil. pose proof (combine_matriculas arrivals departures) as Hm.
    rewrite Hnil in Hm. simpl in Hm. symmetry in Hm.
    apply matriculas_empty in Hm. by apply app_eq_nil in Hm.
  - by intros [-> ->].
Qed.

(** X3. The reconciler returns no row only when it is given no flight; so
    the test of line 297 never fires after the test of line 289, and [main]
    returns the empty list exactly when no flight of the carrier is in the
    window. *)
Theorem empty_output_iff :
  (∀ arrivals departures,
     combine_arrivals_departures arrivals departures = [] ↔
     arrivals = [] ∧ departures = [])
  ∧ (∀ strftime_art s e arrivals_raw departures_raw,
       main_core strftime_art s e arrivals_raw departures_raw = Some [] ↔
       process_flight_data strftime_art arrivals_raw arrivals_t s e = []
       ∧ process_flight_data strftime_art departures_raw departures_t s e = []).
Proof.
  split; [apply combine_nil_iff|].
  intros strftime_art s e arrivals_raw departures_raw. unfold main_core.
  set (A := process_flight_data strftime_art arrivals_raw arrivals_t s e).
  set (D := process_flight_data strftime_art departures_raw departures_t s e).
  destruct (bool_decide (A = [])) eqn:HA; simpl.
  - apply bool_decide_eq_true in HA.
    destruct (bool_decide (D = [])) eqn:HD; simpl.
    + apply bool_decide_eq_true in HD. done.
    + apply bool_decide_eq_false in HD.
      assert (Hne : combine_arrivals_departures A D ≠ []).
      { intros [_ ?]%combine_nil_iff. done. }
      rewrite (bool_decide_eq_false_2 _ Hne).
      destruct (ordenar_eq (combine_arrivals_departures A D)) as (rows & -> & Hp & _).
      split; [|by intros [_ ?]].
      intros [= Hrows]. apply fmap_nil_inv in Hrows. subst rows.
      apply Permutation_nil_l in Hp. done.
  - apply bool_decide_eq_false in HA.
    assert (Hne : combine_arrivals_departures A D ≠ []).
    { intros [? _]%combine_nil_iff. done. }
    rewrite (bool_decide_eq_false_2 _ Hne).
    destruct (ordenar_eq (combine_arrivals_departures A D)) as (rows & -> & Hp & _).
    split; [|by intros [? _]].
    intros [= Hrows]. apply fmap_nil_inv in Hrows. subst rows.
    apply Permutation_nil_l in Hp. done.
Qed.

(** X4. The reconciler returns at most one row per flight and at least one
    row per exception flight. *)
Theorem output_length_bounds arrivals departures :
  (List.length (exception_flights arrivals departures)
   ≤ List.length (combine_arrivals_departures arrivals departures))%nat
  ∧ (List.length (combine_arrivals_departures arrivals departures)
     ≤ List.length arrivals + List.length departures)%nat.
Proof.
  rewrite combine_eq, !length_app, !length_fmap.
  pose proof (primeros_length (matriculas (exception_flights arrivals departures))
                (ordinary_flights arrivals)) as HA.
  pose proof (primeros_length
                (matriculas (exception_flights arrivals departures)
                 ∪ matriculas (ordinary_flights arrivals))
                (ordinary_flights departures)) as HD.
  destruct (flights_split (arrivals ++ departures)) as [_ Hlen].
  fold (exception_flights arrivals departures) in Hlen.
  assert (Hord : ordinary_flights (arrivals ++ departures)
                 = ordinary_flights arrivals ++ ordinary_flights departures)
    by apply filter_app.
  rewrite Hord, !length_app in Hlen. lia.
Qed.

Lemma primeros_elem seen l x :
  NoDup (matricula <$> l) → x ∈ l → matricula x ∉ seen → x ∈ primeros seen l.
Proof.
  revert seen. induction l as [|f l IH]; intros seen Hnd Hx Hseen; simpl.
  - by apply elem_of_nil in Hx.
  - rewrite fmap_cons in Hnd. apply NoDup_cons in Hnd as [Hf Hnd].
    apply elem_of_cons in Hx as [->|Hx].
    + rewrite decide_False by done. by left.
    + assert (matricula x ≠ matricula f).
      { intros Heq. apply Hf. rewrite <- Heq. apply list_elem_of_fmap. by exists x. }
      destruct (decide (matricula f ∈ seen)); [by apply IH|].
      right. apply IH; [done|done|set_solver].
Qed.

Lemma NoDup_matricula_inj (l : list Flight) x y :
  NoDup (matricula <$> l) → x ∈ l → y ∈ l → matricula x = matricula y → x = y.
Proof.
  induction l as [|f l IH]; intros Hnd Hx Hy Heq.
  - by apply elem_of_nil in Hx.
  - rewrite fmap_cons in Hnd. apply NoDup_cons in Hnd as [Hf Hnd].
    apply elem_of_cons in Hx as [->|Hx]; apply elem_of_cons in Hy as [->|Hy].
    + done.
    + exfalso. apply Hf. rewrite Heq. apply list_elem_of_fmap. by exists y.
    + exfalso. apply Hf. rewrite <- Heq. apply list_elem_of_fmap. by exists x.
    + by apply IH.
Qed.

Lemma elem_of_ordinary_flights l f :
  f ∈ ordinary_flights l ↔ f ∈ l ∧ numero_vuelo f ∉ exception_vuelos.
Proof. unfold ordinary_flights. rewrite list_elem_of_filter. tauto. Qed.

(** X5. No flight is dropped when every registration is on at most one
    ordinary arrival and at most one ordinary departure and no ordinary
    flight shares its registration with an exception flight: every exception
    flight has its standalone row, every ordinary arrival is alone or paired
    with a departure of its registration, and every ordinary departure is
    alone or paired with an arrival of its registration. *)
Theorem no_flight_dropped arrivals departures :
  NoDup (matricula <$> ordinary_flights arrivals) →
  NoDup (matricula <$> ordinary_flights departures) →
  (∀ f, f ∈ arrivals ++ departures → numero_vuelo f ∉ exception_vuelos →
        matricula f ∉ matriculas (exception_flights arrivals departures)) →
  (∀ f, f ∈ arrivals ++ departures → numero_vuelo f ∈ exception_vuelos →
        fila_excepcion f ∈ combine_arrivals_departures arrivals departures)
  ∧ (∀ a, a ∈ arrivals → numero_vuelo a ∉ exception_vuelos →
          solo_llegada a ∈ combine_arrivals_departures arrivals departures
          ∨ ∃ d, d ∈ departures ∧ matricula d = matricula a
                 ∧ pareja a d ∈ combine_arrivals_departures arrivals departures)
  ∧ (∀ d, d ∈ departures → numero_vuelo d ∉ exception_vuelos →
          solo_salida d ∈ combine_arrivals_departures arrivals departures
          ∨ ∃ a, a ∈ arrivals ∧ matricula a = matricula d
                 ∧ pareja a d ∈ combine_arrivals_departures arrivals departures).
Proof.
  intros HndA HndD Hsep. rewrite combine_eq.
  set (E := exception_flights arrivals departures) in *.
  assert (HA : primeros (matriculas E) (ordinary_flights arrivals)
               = ordinary_flights arrivals).
  { apply primeros_all; [done|]. intros x [Hx Hord]%elem_of_ordinary_flights.
    apply Hsep; [|done]. apply elem_of_app. by left. }
  rewrite HA.
  assert (Hrow : ∀ a, a ∈ arrivals → numero_vuelo a ∉ exception_vuelos →
                      fila_llegada departures a
                      ∈ fila_llegada departures <$> ordinary_flights arrivals).
  { intros a Ha Hord. apply list_elem_of_fmap. exists a. split; [done|].
    by apply elem_of_ordinary_flights. }
  split_and!.
  - intros f Hf Hexc. apply elem_of_app. left. apply list_elem_of_fmap.
    exists f. split; [done|]. by apply elem_of_exception_flights.
  - intros a Ha Hord. specialize (Hrow a Ha Hord). unfold fila_llegada in Hrow at 1.
    destruct (List.find _ departures) as [d|] eqn:Hd.
    + right. exists d.
      apply find_first in Hd as (l1 & l2 & -> & Hm & _).
      apply andb_true_iff in Hm as [Hreg%bool_decide_eq_true _].
      split_and!; [set_solver|done|]. apply elem_of_app. right.
      apply elem_of_app. by left.
    + left. apply elem_of_app. right. apply elem_of_app. by left.
  - intros d Hd Hord.
    destruct (decide (matricula d ∈ matriculas (ordinary_flights arrivals)))
      as [Hin|Hnin].
    + right. unfold matriculas in Hin. apply elem_of_list_to_set in Hin.
      apply list_elem_of_fmap in Hin as (a & Hreg & [Ha Haord]%elem_of_ordinary_flights).
      exists a. split_and!; [done|done|].
      specialize (Hrow a Ha Haord). unfold fila_llegada in Hrow at 1.
      destruct (List.find _ departures) as [d'|] eqn:Hd'.
      * apply find_first in Hd' as (l1 & l2 & Hdeps & Hm & _).
        apply andb_true_iff in Hm as [Hreg'%bool_decide_eq_true Hord'%bool_decide_eq_true].
        assert (d' = d) as ->.
        { apply (NoDup_matricula_inj (ordinary_flights departures)); [done| | |congruence].
          - apply elem_of_ordinary_flights. split; [|done]. rewrite Hdeps. set_solver.
          - by apply elem_of_ordinary_flights. }
        apply elem_of_app. right. apply elem_of_app. by left.
      * exfalso.
        assert (Hsome : is_Some (List.find
                  (λ d0, bool_decide (matricula d0 = matricula a)
                         && bool_decide (numero_vuelo d0 ∉ exception_vuelos))
                  departures)).
        { apply (find_is_Some _ _ d Hd).
          by rewrite (bool_decide_eq_true_2 _ Hreg), (bool_decide_eq_true_2 _ Hord). }
        rewrite Hd' in Hsome. by destruct Hsome.
    + left. apply elem_of_app. right. apply elem_of_app. right.
      apply list_elem_of_fmap. exists d. split; [done|].
      apply primeros_elem; [done|by apply elem_of_ordinary_flights|].
      intros [Hin|Hin]%elem_of_union; [|done].
      revert Hin. apply Hsep; [|done]. apply elem_of_app. by right.
Qed.

(** X6. A turnaround is paired whatever its times: an ordinary arrival and
    an ordinary departure of the same registration, alone in the input, give
    the single paired row, also when the departure is before the arrival. *)
Theorem paired_whatever_the_times a d :
  numero_vuelo a ∉ exception_vuelos →
  numero_vuelo d ∉ exception_vuelos →
  matricula d = matricula a →
  combine_arrivals_departures [a] [d] = [pareja a d].
Proof.
  intros Ha Hd Hreg. rewrite combine_eq.
  unfold exception_flights, ordinary_flights. simpl.
  rewrite !filter_cons, !filter_nil.
  rewrite (decide_False (P := numero_vuelo a ∈ exception_vuelos)) by done.
  rewrite (decide_False (P := numero_vuelo d ∈ exception_vuelos)) by done.
  rewrite (decide_True (P := numero_vuelo a ∉ exception_vuelos)) by done.
  rewrite (decide_True (P := numero_vuelo d ∉ exception_vuelos)) by done.
  unfold matriculas. simpl.
  rewrite decide_False by set_solver.
  rewrite decide_True by (rewrite Hreg; set_solver).
  simpl. unfold fila_llegada. simpl.
  by rewrite (bool_decide_eq_true_2 _ Hreg), (bool_decide_eq_true_2 _ Hd).
Qed.

(** ** What the rows show *)

Lemma row_cases arrivals departures r :
  r ∈ combine_arrivals_departures arrivals departures →
  (∃ g, g ∈ arrivals ++ departures ∧ r = fila_excepcion g)
  ∨ matched_row arrivals departures r
  ∨ leftover_row departures r.
Proof.
  destruct (combine_structure arrivals departures) as (rest & -> & _ & Hrest & _).
  intros [Hr|Hr]%elem_of_app.
  - left. apply list_elem_of_fmap in Hr as (g & -> & [Hg _]%elem_of_exception_flights).
    by exists g.
  - right. eapply Forall_forall in Hrest as [Hform _]; [|exact Hr]. done.
Qed.

Lemma row_sides_aux arrivals departures r :
  (∀ a, a ∈ arrivals → tipo a = Llegada) →
  (∀ d, d ∈ departures → tipo d = Salida) →
  r ∈ combine_arrivals_departures arrivals departures →
  (sin_llegada r ∨ ∃ a, a ∈ arrivals ∧ muestra_llegada r a)
  ∧ (sin_salida r ∨ ∃ d, d ∈ departures ∧ muestra_salida r d)
  ∧ ((∃ a, a ∈ arrivals ∧ muestra_llegada r a)
     ∨ (∃ d, d ∈ departures ∧ muestra_salida r d)).
Proof.
  intros HA HD Hr. unfold sin_llegada, sin_salida, muestra_llegada, muestra_salida.
  apply row_cases in Hr
    as [(g & Hg & ->)|[(a & Ha & _ & [->|(d & Hd & _ & Hreg & ->)])|(d & Hd & _ & ->)]].
  - unfold fila_excepcion. apply elem_of_app in Hg as [Hg|Hg].
    + rewrite (HA g Hg). simpl. split_and!; [right|left|left]; eauto 10.
    + rewrite (HD g Hg). simpl. split_and!; [left|right|right]; eauto 10.
  - simpl. split_and!; [right|left|left]; eauto 10.
  - simpl. split_and!; [right|right|left]; eauto 10.
  - simpl. split_and!; [left|right|right]; eauto 10.
Qed.

(** X7. When the arrivals are of kind Llegada and the departures of kind
    Salida, the arrival side of every output row is blank or a copy of an
    arrival of the registration of the row, its departure side is blank or a
    copy of a departure of that registration, and the two sides are not
    both blank. *)
Theorem row_sides arrivals departures r :
  (∀ a, a ∈ arrivals → tipo a = Llegada) →
  (∀ d, d ∈ departures → tipo d = Salida) →
  r ∈ combine_arrivals_departures arrivals departures →
  (sin_llegada r ∨ ∃ a, a ∈ arrivals ∧ muestra_llegada r a)
  ∧ (sin_salida r ∨ ∃ d, d ∈ departures ∧ muestra_salida r d)
  ∧ ((∃ a, a ∈ arrivals ∧ muestra_llegada r a)
     ∨ (∃ d, d ∈ departures ∧ muestra_salida r d)).
Proof. apply row_sides_aux. Qed.

(** ** What the extractor keeps *)

Lemma process_flight_extracted strftime_art flight_type s e raw rec :
  process_flight strftime_art flight_type s e raw = Some rec →
  extracted_from strftime_art flight_type s e raw rec.
Proof.
  unfold process_flight, extracted_from.
  destruct (String.eqb (airline_iata raw) "AR") eqn:Hc; simpl; [|discriminate].
  apply String.eqb_eq in Hc.
  destruct (in_window s e _) eqn:Hw; simpl; [|discriminate].
  apply in_window_spec in Hw.
  destruct (flight_time_of flight_type raw =? 0) eqn:H0.
  - intros [= <-]. simpl. rewrite H0. by destruct flight_type.
  - destruct (strftime_art _) as [time_str|] eqn:Hclock; [|discriminate].
    intros [= <-]. simpl. rewrite H0. by destruct flight_type.
Qed.

Lemma process_flight_data_elem strftime_art flights flight_type s e rec :
  rec ∈ process_flight_data strftime_art flights flight_type s e ↔
  ∃ raw, raw ∈ flights
         ∧ process_flight strftime_art flight_type s e raw = Some rec.
Proof. unfold process_flight_data. apply list_elem_of_omap. Qed.

(** X8. Every record the extractor returns comes from a raw flight of the
    carrier in the payload: its time is the estimated time of the flight in
    its direction if that is not 0 and the scheduled time otherwise, lies in
    the window, and was rendered by the clock unless it is 0; its kind is
    the one of the direction, its airport the origin of an arrival or the
    destination of a departure. *)
Theorem extracted_records strftime_art flights flight_type s e rec :
  rec ∈ process_flight_data strftime_art flights flight_type s e →
  ∃ raw, raw ∈ flights ∧ extracted_from strftime_art flight_type s e raw rec.
Proof.
  intros (raw & Hraw & Hrec)%process_flight_data_elem.
  exists raw. split; [done|]. by apply process_flight_extracted.
Qed.

Lemma process_flight_data_filter strftime_art flight_type s e
    (P : RawFlight → Prop) `{∀ raw, Decision (P raw)} flights :
  (∀ raw, ¬ P raw → process_flight strftime_art flight_type s e raw = None) →
  process_flight_data strftime_art (filter P flights) flight_type s e
  = process_flight_data strftime_art flights flight_type s e.
Proof.
  intros Hskip. unfold process_flight_data.
  induction flights as [|raw l IH]; [done|].
  rewrite filter_cons. destruct (decide (P raw)) as [HP|HP]; simpl.
  - destruct (process_flight _ _ _ _ raw); [by f_equal|done].
  - by rewrite (Hskip raw HP).
Qed.

(** X9. Carrier isolation: the flights of other carriers and the flights
    whose effective time is outside the window leave no trace; the
    extractor returns the same records with and without them. *)
Theorem other_flights_leave_no_trace strftime_art flights flight_type s e :
  process_flight_data strftime_art
    (filter (λ raw, airline_iata raw = "AR"
                    ∧ s ≤ flight_time_of flight_type raw ≤ e) flights)
    flight_type s e
  = process_flight_data strftime_art flights flight_type s e.
Proof.
  apply process_flight_data_filter. intros raw Hnot.
  destruct (process_flight strftime_art flight_type s e raw) as [rec|] eqn:Hrec; [|done].
  exfalso. apply Hnot.
  apply process_flight_extracted in Hrec as (Hc & Hw & Ht & _).
  split; [done|]. by rewrite <- Ht.
Qed.

Lemma main_core_rows strftime_art s e arrivals_raw departures_raw out item :
  main_core strftime_art s e arrivals_raw departures_raw = Some out →
  item ∈ out →
  orden_temporal item = None
  ∧ fila item ∈ combine_arrivals_departures
      (process_flight_data strftime_art arrivals_raw arrivals_t s e)
      (process_flight_data strftime_art departures_raw departures_t s e).
Proof.
  unfold main_core.
  set (A := process_flight_data strftime_art arrivals_raw arrivals_t s e).
  set (D := process_flight_data strftime_art departures_raw departures_t s e).
  destruct (_ && _).
  { intros [= <-] Hin. by apply elem_of_nil in Hin. }
  destruct (bool_decide _).
  { intros [= <-] Hin. by apply elem_of_nil in Hin. }
  destruct (ordenar_eq (combine_arrivals_departures A D)) as (rows & -> & Hp & _).
  intros [= <-] (r & -> & Hr)%list_elem_of_fmap. split; [done|].
  simpl. by rewrite <- Hp.
Qed.

(** X10. Every row [main] returns traces back to the payloads: its arrival
    side is blank or a copy of the record of a raw arrival of the carrier
    within the window, its departure side is blank or a copy of the record
    of a raw departure of the carrier within the window, both of the
    registration of the row; the row has a flight number on one side at
    least, and no key ['orden_temporal']. *)
Theorem main_rows_trace_back strftime_art s e arrivals_raw departures_raw out item :
  main_core strftime_art s e arrivals_raw departures_raw = Some out →
  item ∈ out →
  orden_temporal item = None
  ∧ (sin_llegada (fila item)
     ∨ ∃ raw rec, raw ∈ arrivals_raw
                  ∧ extracted_from strftime_art arrivals_t s e raw rec
                  ∧ muestra_llegada (fila item) rec)
  ∧ (sin_salida (fila item)
     ∨ ∃ raw rec, raw ∈ departures_raw
                  ∧ extracted_from strftime_art departures_t s e raw rec
                  ∧ muestra_salida (fila item) rec)
  ∧ (llegada (fila item) ≠ "" ∨ salida (fila item) ≠ "").
Proof.
  intros Hmain Hitem.
  destruct (main_core_rows _ _ _ _ _ _ _ Hmain Hitem) as [Hnone Hrow].
  split; [done|].
  assert (HA : ∀ rec, rec ∈ process_flight_data strftime_art arrivals_raw arrivals_t s e →
                      ∃ raw, raw ∈ arrivals_raw
                             ∧ extracted_from strftime_art arrivals_t s e raw rec).
  { intros rec (raw & Hraw & Hrec)%process_flight_data_elem.
    exists raw. split; [done|]. by apply process_flight_extracted. }
  assert (HD : ∀ rec, rec ∈ process_flight_data strftime_art departures_raw departures_t s e →
                      ∃ raw, raw ∈ departures_raw
                             ∧ extracted_from strftime_art departures_t s e raw rec).
  { intros rec (raw & Hraw & Hrec)%process_flight_data_elem.
    exists raw. split; [done|]. by apply process_flight_extracted. }
  apply row_sides_aux in Hrow as (Hl & Hs & Hsome).
  - split_and!.
    + destruct Hl as [Hl|(a & Ha & Hshow)]; [by left|].
      right. destruct (HA a Ha) as (raw & Hraw & Hext). by exists raw, a.
    + destruct Hs as [Hs|(d & Hd & Hshow)]; [by left|].
      right. destruct (HD d Hd) as (raw & Hraw & Hext). by exists raw, d.
    + destruct Hsome as [(a & Ha & Hshow)|(d & Hd & Hshow)].
      * left. destruct (HA a Ha) as (raw & _ & (_ & _ & _ & _ & Hnum & _)).
        destruct Hshow as (-> & _). rewrite Hnum. discriminate.
      * right. destruct (HD d Hd) as (raw & _ & (_ & _ & _ & _ & Hnum & _)).
        destruct Hshow as (-> & _). rewrite Hnum. discriminate.
  - intros a Ha. by destruct (HA a Ha) as (raw & _ & (_ & _ & _ & -> & _)).
  - intros d Hd. by destruct (HD d Hd) as (raw & _ & (_ & _ & _ & -> & _)).
Qed.

(** ** More on the ordering *)

Lemma ltb_irrefl s : String.ltb s s = false.
Proof.
  unfold String.ltb. pose proof (String.compare_antisym s s) as H.
  by destruct (String.compare s s).
Qed.

Lemma leb_not_ltb s1 s2 : String.leb s1 s2 = true → String.ltb s2 s1 = false.
Proof.
  unfold String.ltb, String.leb. rewrite (String.compare_antisym s1 s2).
  by destruct (String.compare s2 s1).
Qed.

Lemma filter_fmap_comm {A B} (f : A → B) (P : B → Prop) `{∀ y, Decision (P y)}
    (l : list A) :
  filter P (f <$> l) = f <$> filter (λ x, P (f x)) l.
Proof.
  induction l as [|x l IH]; [done|].
  rewrite fmap_cons, !filter_cons.
  destruct (decide (P (f x))); [by rewrite fmap_cons, IH|done].
Qed.

Lemma fmap_keyed_row (combined : list Combined) :
  (fila ∘ snd) <$> (keyed_row <$> combined) = combined.
Proof. induction combined as [|row l IH]; [done|]. rewrite !fmap_cons. by f_equal. Qed.

(** The value of lines 302-306 on the rows of the reconciler. *)
Lemma ordenar_value (combined : list Combined) :
  ordenar (sin_orden <$> combined)
  = Some (sin_orden <$> ((fila ∘ snd) <$> sort_keyed (keyed_row <$> combined))).
Proof.
  set (sorted := sort_keyed (keyed_row <$> combined)).
  assert (Hshape : Forall (λ p, p = keyed_row (fila p.2)) sorted).
  { unfold sorted. rewrite sort_keyed_Permutation.
    apply Forall_fmap, Forall_forall. by intros row _. }
  unfold ordenar, sort_by_orden. rewrite mapM_key_of. simpl. fold sorted.
  apply mapM_Some_2.
  induction Hshape as [|p l Hp _ IH]; simpl; [constructor|].
  constructor; [|done]. rewrite Hp. done.
Qed.

Lemma insert_keyed_filter k x l :
  filter (λ p : string * Item, fst p = k) (insert_keyed x l)
  = filter (λ p : string * Item, fst p = k) (x :: l).
Proof.
  induction l as [|y l IH]; [done|]. simpl.
  destruct (String.ltb (fst y) (fst x)) eqn:Hlt; [|done].
  rewrite (filter_cons _ y), IH, !filter_cons.
  destruct (decide (fst y = k)) as [Hy|Hy], (decide (fst x = k)) as [Hx|Hx]; try done.
  rewrite Hy, Hx, ltb_irrefl in Hlt. discriminate.
Qed.

Lemma sort_keyed_filter k l :
  filter (λ p : string * Item, fst p = k) (sort_keyed l)
  = filter (λ p : string * Item, fst p = k) l.
Proof.
  induction l as [|x l IH]; [done|]. simpl.
  by rewrite insert_keyed_filter, !filter_cons, IH.
Qed.

Lemma sort_keyed_sorted l : Sorted key_le l → sort_keyed l = l.
Proof.
  induction 1 as [|x l Hs IH Hd]; [done|]. simpl. rewrite IH.
  destruct Hd as [|y l Hxy]; [done|]. simpl.
  by rewrite (leb_not_ltb _ _ Hxy).
Qed.

(** X11. The sort is stable: the rows of one sort key leave lines 302-306 in
    the order the reconciler gave them. *)
Theorem ordering_stable combined out k :
  ordenar (sin_orden <$> combined) = Some out →
  filter (λ r, spec_sort_key r = k) (fila <$> out)
  = filter (λ r, spec_sort_key r = k) combined.
Proof.
  rewrite ordenar_value. intros [= <-].
  assert (Hfila : ∀ rows : list Combined, fila <$> (sin_orden <$> rows) = rows).
  { intros rows. induction rows as [|row l IH]; simpl; [done|]. by f_equal. }
  rewrite Hfila.
  rewrite <- (fmap_keyed_row combined) at 2.
  rewrite !(filter_fmap_comm (fila ∘ snd)). f_equal.
  set (sorted := sort_keyed (keyed_row <$> combined)).
  assert (Hshape : ∀ l : list (string * Item),
            Forall (λ p, p = keyed_row (fila p.2)) l →
            filter (λ p, spec_sort_key ((fila ∘ snd) p) = k) l
            = filter (λ p : string * Item, fst p = k) l).
  { intros l Hl. induction Hl as [|p l Hp _ IH]; [done|].
    rewrite !filter_cons, IH.
    assert (Hkey : spec_sort_key ((fila ∘ snd) p) = fst p) by (by rewrite Hp at 2).
    rewrite Hkey. done. }
  rewrite !Hshape.
  - apply sort_keyed_filter.
  - apply Forall_fmap, Forall_forall. by intros row _.
  - unfold sorted. rewrite sort_keyed_Permutation.
    apply Forall_fmap, Forall_forall. by intros row _.
Qed.

(** X12. Ordering what lines 302-306 returned changes nothing: the rows
    are in order already and keep their places. *)
Theorem ordering_idempotent combined out :
  ordenar (sin_orden <$> combined) = Some out →
  ordenar out = Some out.
Proof.
  destruct (ordenar_eq combined) as (rows & -> & _ & Hsorted).
  intros [= <-]. rewrite ordenar_value.
  rewrite sort_keyed_sorted.
  - by rewrite fmap_keyed_row.
  - eapply Sorted_fmap; [|exact Hsorted]. intros r1 r2 Hle. exact Hle.
Qed.

(** ** The payload as JSON *)

Lemma truthy_str s : truthy (JStr s) = true → s ≠ "".
Proof. simpl. intros H ->. discriminate H. Qed.

Lemma truthy_int z : truthy (JInt z) = true → (z =? 0) = false.
Proof. simpl. by destruct (z =? 0). Qed.

Lemma decode_process_flight strftime_art flight_type s e flight raw :
  decode flight_type flight = Some raw →
  process_flight_json strftime_art flight_type s e flight
  = to_json <$> process_flight strftime_art flight_type s e raw.
Proof.
  intros H. unfold decode in H. destruct flight_type.
  all: repeat bind_Some H; injection H as <-.
  all: unfold process_flight_json.
  all: repeat match goal with
         | E : get_in _ _ = Some _ |- _ => rewrite E; clear E; cbn [mbind option_bind]
         | E : get _ _ _ = Some _ |- _ => rewrite E; clear E; cbn [mbind option_bind]
         end.
  all: unfold process_flight, raw_number, flight_time_of;
       cbn [airline_iata number_default number_number registration
            scheduled_arrival scheduled_departure estimated_arrival
            estimated_departure origin_iata destination_iata].
  all: leaves; cbn [is_str].
  all: destruct (String.eqb _ "AR"); cbn [negb]; [|done].
  all: repeat match goal with
         | E : (if truthy ?j then _ else _) = Some _ |- _ =>
             let T := fresh "T" in destruct (truthy j) eqn:T
         end; leaves; cbn [seconds_of truthy mbind option_bind].
  all: repeat match goal with
         | T : truthy (JStr _) = true |- _ => apply truthy_str in T
         | T : truthy (JInt _) = true |- _ => apply truthy_int in T
         end.
  all: repeat match goal with
         | T : (_ =? 0) = false |- _ => rewrite !T
         | T : ?s ≠ "" |- _ => rewrite (bool_decide_eq_false_2 _ T)
         end;
       rewrite ?(bool_decide_eq_true_2 ("" = "")) by done;
       change (0 =? 0) with true; cbn iota.
  all: destruct (in_window s e _); cbn [negb]; [|done].
  all: destruct (_ =? 0); cbn [negb]; [done|].
  all: by destruct (strftime_art _).
Qed.

Lemma is_str_true s v : is_str s v = true → v = JStr s.
Proof.
  destruct v; simpl; try discriminate. by intros ->%String.eqb_eq.
Qed.

Lemma get_Some_dict k dflt v x : get k dflt v = Some x → ∃ d, v = JDict d.
Proof. destruct v; try discriminate. by eexists. Qed.

Lemma get_in_app keys keys' v :
  get_in (keys ++ keys') v = get_in keys v ≫= get_in keys'.
Proof.
  revert v. induction keys as [|k keys IH]; intros v; [done|].
  simpl. destruct (get k (JDict []) v); [apply IH|done].
Qed.

Lemma get_in_snoc_dict keys k v x :
  get_in (keys ++ [k]) v = Some x → ∃ d, get_in keys v = Some (JDict d).
Proof.
  rewrite get_in_app. destruct (get_in keys v) as [node|]; [|discriminate].
  simpl. destruct (get k (JDict []) node) eqn:E; [|discriminate].
  intros _. apply get_Some_dict in E as [d ->]. by exists d.
Qed.

Lemma get_in_empty keys : get_in keys (JDict []) = Some (JDict []).
Proof. induction keys as [|k keys IH]; [done|]. simpl. apply IH. Qed.

Lemma lookup_path_app keys keys' v :
  lookup_path (keys ++ keys') v = lookup_path keys v ≫= lookup_path keys'.
Proof.
  revert v. induction keys as [|k keys IH]; intros v; [done|].
  simpl. destruct v; try done. destruct (assoc k d); [apply IH|done].
Qed.

(** The value of a chain of [.get] is the node at the end of the keys when
    they are all there, and the last default when one is missing. *)
Lemma get_in_get keys k dflt v node x :
  get_in keys v = Some node → get k dflt node = Some x →
  x = default dflt (lookup_path (keys ++ [k]) v).
Proof.
  revert v. induction keys as [|k0 keys IH]; intros v; simpl.
  - intros [= ->] Hx. destruct node; try discriminate. simpl in *.
    injection Hx as <-. by destruct (assoc k d).
  - destruct v; try discriminate. simpl.
    destruct (assoc k0 d) as [v'|]; simpl; [apply IH|].
    rewrite get_in_empty. intros [= <-]. simpl. by intros [= <-].
Qed.

Lemma lookup_path_get_in keys v x :
  lookup_path keys v = Some x → get_in keys v = Some x.
Proof.
  revert v. induction keys as [|k keys IH]; intros v; simpl; [done|].
  destruct v; try discriminate. simpl.
  destruct (assoc k d) as [v'|]; simpl; [apply IH|discriminate].
Qed.

Lemma is_str_iterate strftime_art flight_type s e str :
  process_flight_json strftime_art flight_type s e (JStr str) = None.
Proof. done. Qed.

Lemma fetch_returns_the_node_aux fetch flight_type flights :
  flights ≠ JList [] →
  get_flight_data_from_fr24 fetch flight_type = flights ↔
  ∃ data, fetch = fetch_response 200 (Some data)
          ∧ lookup_path (schedule_path flight_type) data = Some flights
          ∧ has_len flights = true.
Proof.
  intros Hne. unfold get_flight_data_from_fr24, schedule_path. split.
  - destruct fetch as [|status_code body]; [by intros <-|].
    destruct (Z.eqb_spec status_code 200) as [->|]; [|by intros <-].
    destruct body as [data|]; [|by intros <-]. cbn [mbind option_bind].
    destruct (get_in _ data) as [node|] eqn:Hnode; [|by intros <-].
    cbn [mbind option_bind].
    destruct (get "data" (JList []) node) as [x|] eqn:Hx; [|by intros <-].
    cbn [mbind option_bind].
    destruct (has_len x) eqn:Hlen; [|by intros <-].
    intros ->. exists data. split_and!; [done| |done].
    pose proof (get_in_get _ _ _ _ _ _ Hnode Hx) as Hval. simpl app in Hval.
    destruct (lookup_path _ data) as [y|]; simpl in Hval; congruence.
  - intros (data & -> & Hpath & Hlen). cbn [Z.eqb Pos.eqb mbind option_bind].
    change ["result"; "response"; "airport"; "pluginData"; "schedule"; flight_type; "data"]
      with (["result"; "response"; "airport"; "pluginData"; "schedule"; flight_type]
            ++ ["data"]) in Hpath.
    rewrite lookup_path_app in Hpath.
    destruct (lookup_path _ data) as [node|] eqn:Hnode; [|discriminate].
    simpl in Hpath. rewrite (lookup_path_get_in _ _ _ Hnode). cbn [mbind option_bind].
    destruct node; try discriminate. simpl in Hpath. simpl.
    destruct (assoc "data" d); [|discriminate]. injection Hpath as ->.
    cbn [mbind option_bind]. by rewrite Hlen.
Qed.

(** X13. The fetch returns flights only when the request succeeded with
    status 200, the body is JSON and every key of the path of line 40 is
    there: a result other than the empty list is the node at the end of that
    path, and such a node with a length is what the fetch returns. *)
Theorem fetch_returns_the_node fetch flight_type flights :
  flights ≠ JList [] →
  get_flight_data_from_fr24 fetch flight_type = flights ↔
  ∃ data, fetch = fetch_response 200 (Some data)
          ∧ lookup_path (schedule_path flight_type) data = Some flights
          ∧ has_len flights = true.
Proof. apply fetch_returns_the_node_aux. Qed.

Lemma fetch_not_list_no_flights strftime_art flights flight_type s e :
  (∀ l, flights ≠ JList l) →
  process_flight_data_json strftime_art flights flight_type s e = [].
Proof.
  intros Hl. unfold process_flight_data_json.
  destruct flights as [| | |str|l|d]; try done.
  - clear Hl. simpl. induction str as [|c str IH]; [done|]. simpl. exact IH.
  - by destruct (Hl l).
  - clear Hl. simpl. induction d as [|[k v] d IH]; [done|]. simpl. exact IH.
Qed.

(** X14. A failed fetch is no flights: the extraction of what a fetch
    returned yields a record only when the request succeeded with status
    200 and the node at the end of the path of line 40 is a list, and then
    it is the extraction of the elements of that list. *)
Theorem fetch_failure_is_no_flights strftime_art fetch flight_type s e :
  fetch_and_process strftime_art fetch flight_type s e ≠ [] →
  ∃ data l,
    fetch = fetch_response 200 (Some data)
    ∧ lookup_path (schedule_path (flight_type_str flight_type)) data = Some (JList l)
    ∧ fetch_and_process strftime_art fetch flight_type s e
      = omap (process_flight_json strftime_art flight_type s e) l.
Proof.
  unfold fetch_and_process. intros Hne.
  destruct (get_flight_data_from_fr24 fetch (flight_type_str flight_type))
    as [| | | |l|] eqn:Hfetch;
    try (exfalso; apply Hne; by apply fetch_not_list_no_flights).
  destruct l as [|x l]; [by destruct Hne|].
  apply fetch_returns_the_node_aux in Hfetch as (data & -> & Hpath & _); [|done].
  by exists data, (x :: l).
Qed.

(** X15. On a list of raw flights that all have a typed reading, the
    extractor on the payload and the extractor on the typed readings return
    the same records. *)
Theorem typed_extractor_agrees strftime_art flight_type s e l raws :
  mapM (decode flight_type) l = Some raws →
  process_flight_data_json strftime_art (JList l) flight_type s e
  = to_json <$> process_flight_data strftime_art raws flight_type s e.
Proof.
  intros H%mapM_Some_1. unfold process_flight_data_json, process_flight_data. simpl.
  induction H as [|flight raw l raws Hdec _ IH]; [done|]. simpl.
  rewrite (decode_process_flight strftime_art _ s e _ _ Hdec).
  destruct (process_flight _ _ _ _ raw); simpl; [by f_equal|done].
Qed.

Lemma get_in_snoc keys k v node x :
  get_in keys v = Some node → get k (JDict []) node = Some x →
  get_in (keys ++ [k]) v = Some x.
Proof. intros Hn Hx. rewrite get_in_app, Hn. simpl. by rewrite Hx. Qed.

(** The accesses behind a record that was kept. *)
Lemma process_flight_json_accesses strftime_art flight_type s e flight recj :
  process_flight_json strftime_art flight_type s e flight = Some recj →
  ∃ airline code airline_code fnd dflt number aircraft td sch sch_t est est_t ac,
    get_in ["flight"; "airline"] flight = Some airline
    ∧ get "code" (JDict []) airline = Some code
    ∧ get "iata" (JStr "") code = Some airline_code
    ∧ airline_code = JStr "AR"
    ∧ get_in ["flight"; "identification"; "number"] flight = Some fnd
    ∧ get "default" (JStr "") fnd = Some dflt
    ∧ get "number" (JStr "") fnd = Some number
    ∧ (∃ n, (if truthy dflt then dflt else number) = JStr n
            ∧ numero_vuelo_j recj = with_carrier (strip_carrier n))
    ∧ get_in ["flight"; "aircraft"] flight = Some aircraft
    ∧ get "registration" (JStr "") aircraft = Some (matricula_j recj)
    ∧ get_in ["flight"; "time"] flight = Some td
    ∧ get "scheduled" (JDict []) td = Some sch
    ∧ get (time_key flight_type) (JInt 0) sch = Some sch_t
    ∧ get "estimated" (JDict []) td = Some est
    ∧ get (time_key flight_type) (JInt 0) est = Some est_t
    ∧ timestamp_j recj = (if truthy est_t then est_t else sch_t)
    ∧ (∃ t, seconds_of (timestamp_j recj) = Some t ∧ in_window s e t = true)
    ∧ get_in ["flight"; "airport"; airport_key flight_type; "code"] flight = Some ac
    ∧ get "iata" (JStr "") ac = Some (aeropuerto_j recj).
Proof.
  intros H. unfold process_flight_json in H.
  destruct (get_in ["flight"; "airline"] flight) as [airline|] eqn:Hairline;
    cbn [mbind option_bind] in H; [|discriminate].
  destruct (get "code" _ airline) as [code|] eqn:Hcode;
    cbn [mbind option_bind] in H; [|discriminate].
  destruct (get "iata" _ code) as [airline_code|] eqn:Hiata;
    cbn [mbind option_bind] in H; [|discriminate].
  destruct (is_str "AR" airline_code) eqn:HAR; cbn [negb] in H; [|discriminate].
  apply is_str_true in HAR.
  destruct (get_in ["flight"; "identification"; "number"] flight) as [fnd|] eqn:Hfnd;
    cbn [mbind option_bind] in H; [|discriminate].
  destruct (get "default" _ fnd) as [dflt|] eqn:Hdflt;
    cbn [mbind option_bind] in H; [|discriminate].
  assert (Hnumber : ∃ number, get "number" (JStr "") fnd = Some number).
  { destruct fnd; try discriminate. by eexists. }
  destruct Hnumber as [number Hnumber]. rewrite Hnumber in H.
  assert (Hfn : (if truthy dflt then Some dflt else Some number)
                = Some (if truthy dflt then dflt else number))
    by (by destruct (truthy dflt)).
  rewrite Hfn in H. cbn [mbind option_bind] in H. clear Hfn.
  destruct (if truthy dflt then dflt else number) as [| | |n| |] eqn:Hn;
    cbn [mbind option_bind] in H; try discriminate.
  destruct (get_in ["flight"; "aircraft"] flight) as [aircraft|] eqn:Haircraft;
    cbn [mbind option_bind] in H; [|discriminate].
  destruct (get "registration" _ aircraft) as [reg|] eqn:Hreg;
    cbn [mbind option_bind] in H; [|discriminate].
  destruct (get_in ["flight"; "time"] flight) as [td|] eqn:Htd;
    cbn [mbind option_bind] in H; [|discriminate].
  destruct (get "scheduled" _ td) as [sch|] eqn:Hsch;
    cbn [mbind option_bind] in H; [|discriminate].
  destruct (get (time_key flight_type) _ sch) as [sch_t|] eqn:Hscht;
    cbn [mbind option_bind] in H; [|discriminate].
  destruct (get "estimated" _ td) as [est|] eqn:Hest;
    cbn [mbind option_bind] in H; [|discriminate].
  destruct (get (time_key flight_type) _ est) as [est_t|] eqn:Hestt;
    cbn [mbind option_bind] in H; [|discriminate].
  set (ft := if truthy est_t then est_t else sch_t) in *.
  destruct (seconds_of ft) as [t|] eqn:Ht;
    cbn [mbind option_bind] in H; [|discriminate].
  destruct (in_window s e t) eqn:Hw; cbn [negb] in H; [|discriminate].
  assert (Hac : ∃ ac, get_in ["flight"; "airport"; airport_key flight_type; "code"] flight
                      = Some ac
                      ∧ (get "iata" (JStr "") ac
                         ≫= λ airport,
                              (if truthy ft then strftime_art t else Some "")
                              ≫= λ time_str,
                                   Some {| tipo_j := match flight_type with
                                                     | arrivals_t => Llegada
                                                     | departures_t => Salida
                                                     end;
                                           numero_vuelo_j := with_carrier (strip_carrier n);
                                           hora_j := time_str;
                                           aeropuerto_j := airport;
                                           matricula_j := reg;
                                           timestamp_j := ft |}) = Some recj).
  { destruct flight_type; cbn [airport_key].
    - destruct (get_in ["flight"; "airport"; "origin"; "code"] flight) as [ac|];
        cbn [mbind option_bind] in H; [|discriminate]. by exists ac.
    - destruct (get_in ["flight"; "airport"; "destination"; "code"] flight) as [ac|];
        cbn [mbind option_bind] in H; [|discriminate]. by exists ac. }
  destruct Hac as (ac & Hac & Hrest). clear H.
  destruct (get "iata" _ ac) as [airport|] eqn:Hairport;
    cbn [mbind option_bind] in Hrest; [|discriminate].
  destruct (if truthy ft then strftime_art t else Some "") as [time_str|];
    cbn [mbind option_bind] in Hrest; [|discriminate].
  injection Hrest as <-. cbn [numero_vuelo_j matricula_j timestamp_j aeropuerto_j].
  exists airline, code, airline_code, fnd, dflt, number, aircraft, td, sch, sch_t,
    est, est_t, ac.
  split_and!; try done; [by exists n|by exists t].
Qed.

Lemma process_flight_json_decodes strftime_art flight_type s e flight recj m ap z :
  process_flight_json strftime_art flight_type s e flight = Some recj →
  matricula_j recj = JStr m →
  aeropuerto_j recj = JStr ap →
  timestamp_j recj = JInt z →
  is_Some (decode flight_type flight).
Proof.
  intros H Hm Hap Hz.
  apply process_flight_json_accesses in H
    as (airline & code & airline_code & fnd & dflt & number & aircraft & td & sch
        & sch_t & est & est_t & ac & Hairline & Hcode & Hiata & -> & Hfnd & Hdflt
        & Hnumber & (n & Hn & _) & Haircraft & Hreg & Htd & Hsch & Hscht & Hest
        & Hestt & Ht & _ & Hac & Hairport).
  rewrite Hm in Hreg. rewrite Hap in Hairport. rewrite Hz in Ht. symmetry in Ht.
  assert (Hac' : match flight_type with
                 | arrivals_t => get_in ["flight"; "airport"; "origin"; "code"] flight
                 | departures_t =>
                     get_in ["flight"; "airport"; "destination"; "code"] flight
                 end = Some ac) by (by destruct flight_type).
  unfold decode.
  rewrite Hairline; cbn [mbind option_bind].
  rewrite Hcode; cbn [mbind option_bind].
  rewrite Hiata; cbn [mbind option_bind str_leaf].
  rewrite Hfnd; cbn [mbind option_bind].
  rewrite Hdflt; cbn [mbind option_bind].
  destruct (truthy dflt); subst; cbn [mbind option_bind str_leaf].
  all: rewrite Hnumber; cbn [mbind option_bind str_leaf].
  all: rewrite Haircraft; cbn [mbind option_bind].
  all: rewrite Hreg; cbn [mbind option_bind str_leaf].
  all: rewrite Htd; cbn [mbind option_bind].
  all: rewrite Hsch; cbn [mbind option_bind].
  all: rewrite Hscht; cbn [mbind option_bind].
  all: rewrite Hest; cbn [mbind option_bind].
  all: rewrite Hestt; cbn [mbind option_bind].
  all: destruct (truthy est_t); subst; cbn [mbind option_bind int_leaf].
  all: rewrite Hac'; cbn [mbind option_bind].
  all: rewrite Hairport; cbn [mbind option_bind str_leaf].
  all: by eexists.
Qed.

(** X16. Every record the extractor makes of a raw flight, when its
    registration and its airport are strings and its time is an integer, is
    the record the typed extractor makes of the typed reading of that
    flight. *)
Theorem kept_flights_have_a_typed_reading strftime_art flight_type s e flight recj m ap z :
  process_flight_json strftime_art flight_type s e flight = Some recj →
  matricula_j recj = JStr m →
  aeropuerto_j recj = JStr ap →
  timestamp_j recj = JInt z →
  ∃ raw rec,
    decode flight_type flight = Some raw
    ∧ process_flight strftime_art flight_type s e raw = Some rec
    ∧ recj = to_json rec.
Proof.
  intros H Hm Hap Hz.
  destruct (process_flight_json_decodes _ _ _ _ _ _ _ _ _ H Hm Hap Hz) as [raw Hraw].
  pose proof (decode_process_flight strftime_art _ s e _ _ Hraw) as Hagree.
  rewrite H in Hagree.
  destruct (process_flight strftime_art flight_type s e raw) as [rec|] eqn:Hkept;
    simpl in Hagree; [|discriminate].
  injection Hagree as Hrec. by exists raw, rec.
Qed.

(** The integer time is a condition of X16: the flight whose estimated time
    is [true] is kept in a window that holds second 1, with [True] as its
    timestamp and the time of day of second 1, and it has no typed
    reading. *)
Lemma boolean_time_is_kept :
  process_flight_json hhmm_art arrivals_t 0 5 (json_ar1234_at (JBool true))
  = Some {| tipo_j := Llegada;
            numero_vuelo_j := "AR1234";
            hora_j := "21:00";
            aeropuerto_j := JStr "AEP";
            matricula_j := JStr "LV-FUA";
            timestamp_j := JBool true |}
  ∧ decode arrivals_t (json_ar1234_at (JBool true)) = None.
Proof. split; vm_compute; reflexivity. Qed.

Lemma kept_nodes strftime_art flight_type s e flight recj path :
  process_flight_json strftime_art flight_type s e flight = Some recj →
  path ∈ walked_paths flight_type →
  ∃ d, get_in path flight = Some (JDict d).
Proof.
  intros H Hpath.
  apply process_flight_json_accesses in H
    as (airline & code & airline_code & fnd & dflt & number & aircraft & td & sch
        & sch_t & est & est_t & ac & Hairline & Hcode & Hiata & _ & Hfnd & Hdflt & _
        & _ & Haircraft & Hreg & Htd & Hsch & Hscht & Hest & Hestt & _ & _ & Hac
        & Hairport).
  pose proof (get_in_snoc ["flight"; "airline"] "code" _ _ _ Hairline Hcode) as Hcode'.
  pose proof (get_in_snoc ["flight"; "time"] "scheduled" _ _ _ Htd Hsch) as Hsch'.
  pose proof (get_in_snoc ["flight"; "time"] "estimated" _ _ _ Htd Hest) as Hest'.
  simpl app in *.
  apply get_Some_dict in Hcode as [? ->]. apply get_Some_dict in Hiata as [? ->].
  apply get_Some_dict in Hdflt as [? ->]. apply get_Some_dict in Hreg as [? ->].
  apply get_Some_dict in Hsch as [? ->]. apply get_Some_dict in Hscht as [? ->].
  apply get_Some_dict in Hestt as [? ->]. apply get_Some_dict in Hairport as [? ->].
  pose proof (get_in_snoc_dict ["flight"] "airline" _ _ Hairline) as Hflight.
  pose proof (get_in_snoc_dict [] "flight" flight) as Hroot.
  pose proof (get_in_snoc_dict ["flight"; "identification"] "number" _ _ Hfnd) as Hident.
  pose proof (get_in_snoc_dict ["flight"; "airport"; airport_key flight_type] "code" _ _ Hac)
    as Hend.
  destruct Hflight as [dflight Hflight]. destruct Hend as [dend Hend].
  specialize (Hroot _ Hflight).
  pose proof (get_in_snoc_dict ["flight"; "airport"] (airport_key flight_type) _ _ Hend)
    as Hairports.
  unfold walked_paths in Hpath.
  repeat (apply elem_of_cons in Hpath as [->|Hpath]); eauto.
  by apply elem_of_nil in Hpath.
Qed.

(** X17. A raw flight in which a node on the way to a leaf is there and is
    not a dictionary, such as an aircraft that is [null], is skipped. *)
Theorem malformed_flight_is_skipped strftime_art flight_type s e flight path v :
  path ∈ walked_paths flight_type →
  lookup_path path flight = Some v →
  (∀ d, v ≠ JDict d) →
  process_flight_json strftime_art flight_type s e flight = None.
Proof.
  intros Hpath Hv Hnot.
  destruct (process_flight_json strftime_art flight_type s e flight) as [recj|] eqn:H;
    [|done].
  destruct (kept_nodes _ _ _ _ _ _ _ H Hpath) as [d Hd].
  rewrite (lookup_path_get_in _ _ _ Hv) in Hd. injection Hd as ->.
  by destruct (Hnot d).
Qed.

(** X18. What a kept record holds, read off the payload with a missing key
    standing for its default: the carrier code is AR; the registration and
    the airport are the leaves of the aircraft and of the other end, or
    ['']; the time is the leaf of the estimated time of the direction unless
    that leaf is missing or falsy ([null], [false], 0, or an empty string,
    list or dictionary), and the leaf of the scheduled time then, or 0; this
    time passes the comparison of line 87, [True] counting as 1 and [False]
    as 0; the number is the leaf of key ['default'] unless that is missing or
    falsy, and the leaf of key ['number'] then; it is a string, stored
    with one carrier code in front. *)
Theorem kept_record_leaves strftime_art flight_type s e flight recj :
  process_flight_json strftime_art flight_type s e flight = Some recj →
  leaf_or (JStr "") ["flight"; "airline"; "code"; "iata"] flight = JStr "AR"
  ∧ matricula_j recj
    = leaf_or (JStr "") ["flight"; "aircraft"; "registration"] flight
  ∧ aeropuerto_j recj
    = leaf_or (JStr "")
        ["flight"; "airport"; airport_key flight_type; "code"; "iata"] flight
  ∧ timestamp_j recj
    = (let estimated_time :=
         leaf_or (JInt 0) ["flight"; "time"; "estimated"; time_key flight_type] flight in
       if truthy estimated_time then estimated_time
       else leaf_or (JInt 0) ["flight"; "time"; "scheduled"; time_key flight_type] flight)
  ∧ (∃ t, seconds_of (timestamp_j recj) = Some t ∧ s ≤ t ≤ e)
  ∧ ∃ n,
      (let number_default :=
         leaf_or (JStr "") ["flight"; "identification"; "number"; "default"] flight in
       if truthy number_default then number_default
       else leaf_or (JStr "") ["flight"; "identification"; "number"; "number"] flight)
      = JStr n
      ∧ numero_vuelo_j recj = with_carrier (strip_carrier n).
Proof.
  intros H.
  apply process_flight_json_accesses in H
    as (airline & code & airline_code & fnd & dflt & number & aircraft & td & sch
        & sch_t & est & est_t & ac & Hairline & Hcode & Hiata & HAR & Hfnd & Hdflt
        & Hnumber & (n & Hn & Hnum) & Haircraft & Hreg & Htd & Hsch & Hscht & Hest
        & Hestt & Ht & (t & Hsec & Hw) & Hac & Hairport).
  pose proof (get_in_snoc ["flight"; "airline"] "code" _ _ _ Hairline Hcode) as Hcode'.
  pose proof (get_in_snoc ["flight"; "time"] "scheduled" _ _ _ Htd Hsch) as Hsch'.
  pose proof (get_in_snoc ["flight"; "time"] "estimated" _ _ _ Htd Hest) as Hest'.
  simpl app in *. unfold leaf_or.
  pose proof (get_in_get _ _ _ _ _ _ Hcode' Hiata) as L1.
  pose proof (get_in_get _ _ _ _ _ _ Haircraft Hreg) as L2.
  pose proof (get_in_get _ _ _ _ _ _ Hac Hairport) as L3.
  pose proof (get_in_get _ _ _ _ _ _ Hest' Hestt) as L4.
  pose proof (get_in_get _ _ _ _ _ _ Hsch' Hscht) as L5.
  pose proof (get_in_get _ _ _ _ _ _ Hfnd Hdflt) as L6.
  pose proof (get_in_get _ _ _ _ _ _ Hfnd Hnumber) as L7.
  simpl app in *. rewrite <- L1, <- L2, <- L3, <- L4, <- L5, <- L6, <- L7.
  apply in_window_spec in Hw.
  split; [done|]. split; [done|]. split; [done|]. split; [done|].
  split; [by exists t|]. by exists n.
Qed.

(** ** The window and the clock *)

(** X19. The window [main] hands to the extractor is the next 24 hours to
    the second, for a clock between the epoch and [2**33] seconds: it ends
    86400 seconds after it starts, and a time passes the test of line 87
    exactly when it is at most 86400 seconds after the second of now. *)
Theorem window_is_the_next_24_hours now t :
  0 ≤ now →
  now + 24 * 3600 * 1000000 < 2 ^ 33 * 1000000 →
  int_timestamp (snd (get_time_range now))
  = int_timestamp (fst (get_time_range now)) + 86400
  ∧ (in_window (int_timestamp (fst (get_time_range now)))
               (int_timestamp (snd (get_time_range now))) t = true
     ↔ int_timestamp now ≤ t ≤ int_timestamp now + 86400).
Proof.
  intros Hnow _. unfold get_time_range, int_timestamp. cbn [fst snd].
  assert (Hend : (now + 24 * 3600 * 1000000) ÷ 1000000 = now ÷ 1000000 + 86400).
  { rewrite !Z.quot_div_nonneg by lia.
    replace (now + 24 * 3600 * 1000000) with (now + 86400 * 1000000) by lia.
    by rewrite Z.div_add by lia. }
  split; [done|]. rewrite in_window_spec, Hend. done.
Qed.

Lemma spec_sort_key_solo_llegada f : spec_sort_key (solo_llegada f) = hora f.
Proof. unfold spec_sort_key. simpl. by destruct (hora f). Qed.

Lemma combine_two_arrivals rec1 rec2 :
  tipo rec1 = Llegada → tipo rec2 = Llegada →
  matricula rec1 ≠ matricula rec2 →
  combine_arrivals_departures [rec1; rec2] []
  = [solo_llegada rec1; solo_llegada rec2]
  ∨ combine_arrivals_departures [rec1; rec2] []
    = [solo_llegada rec2; solo_llegada rec1].
Proof.
  intros Ht1 Ht2 Hreg. rewrite combine_eq.
  unfold exception_flights, ordinary_flights, matriculas, fila_llegada. simpl.
  rewrite !filter_cons, !filter_nil.
  destruct (decide (numero_vuelo rec1 ∈ exception_vuelos)) as [H1|H1],
           (decide (numero_vuelo rec2 ∈ exception_vuelos)) as [H2|H2].
  - rewrite !decide_False by (intros H; by apply H). simpl.
    unfold fila_excepcion. rewrite Ht1, Ht2. by left.
  - rewrite (decide_False (P := numero_vuelo rec1 ∉ exception_vuelos))
      by (intros H; by apply H).
    rewrite (decide_True (P := numero_vuelo rec2 ∉ exception_vuelos)) by done.
    simpl. rewrite decide_False by set_solver. simpl.
    unfold fila_excepcion. rewrite Ht1. by left.
  - rewrite (decide_True (P := numero_vuelo rec1 ∉ exception_vuelos)) by done.
    rewrite (decide_False (P := numero_vuelo rec2 ∉ exception_vuelos))
      by (intros H; by apply H).
    simpl. rewrite decide_False by set_solver. simpl.
    unfold fila_excepcion. rewrite Ht2. by right.
  - rewrite !decide_True by done. simpl.
    rewrite decide_False by set_solver. rewrite decide_False by set_solver.
    simpl. by left.
Qed.

(** X20. The rows are listed by clock time, not by date: of two arrivals of
    the carrier with different registrations, the one whose time of day is
    the smaller string comes first in what [main] returns, also when it is
    the later flight, as with 00:10 after 23:50 in a window that spans
    midnight. *)
Theorem listed_by_clock_time strftime_art s e raw1 raw2 rec1 rec2 :
  process_flight strftime_art arrivals_t s e raw1 = Some rec1 →
  process_flight strftime_art arrivals_t s e raw2 = Some rec2 →
  matricula rec1 ≠ matricula rec2 →
  timestamp rec1 < timestamp rec2 →
  String.ltb (hora rec2) (hora rec1) = true →
  main_core strftime_art s e [raw1; raw2] []
  = Some [sin_orden (solo_llegada rec2); sin_orden (solo_llegada rec1)].
Proof.
  intros H1 H2 Hreg _ Hlt. unfold main_core, process_flight_data.
  cbn [omap list_omap]. rewrite H1, H2. cbn [omap list_omap].
  rewrite (bool_decide_eq_false_2 ([rec1; rec2] = [])) by done. cbn [andb].
  apply process_flight_extracted in H1 as (_ & _ & _ & Ht1 & _).
  apply process_flight_extracted in H2 as (_ & _ & _ & Ht2 & _).
  assert (Hlt' : String.ltb (hora rec1) (hora rec2) = false).
  { apply leb_not_ltb. by apply ltb_leb. }
  destruct (combine_two_arrivals rec1 rec2 Ht1 Ht2 Hreg) as [-> | ->].
  - rewrite bool_decide_eq_false_2 by done. rewrite ordenar_value.
    simpl. rewrite !spec_sort_key_solo_llegada, Hlt. done.
  - rewrite bool_decide_eq_false_2 by done. rewrite ordenar_value.
    simpl. rewrite !spec_sort_key_solo_llegada, Hlt'. done.
Qed.

(** ** The further theorems at the sample flights *)

Lemma no_flight_dropped_witness :
  NoDup (matricula <$> ordinary_flights [ar1500; ar1514])
  ∧ NoDup (matricula <$> ordinary_flights [ar1501; ar1551_blank])
  ∧ (solo_llegada ar1514
       ∈ combine_arrivals_departures [ar1500; ar1514] [ar1501; ar1551_blank]
     ∨ ∃ d, d ∈ [ar1501; ar1551_blank] ∧ matricula d = matricula ar1514
            ∧ pareja ar1514 d
              ∈ combine_arrivals_departures [ar1500; ar1514] [ar1501; ar1551_blank])
  ∧ (solo_salida ar1501
       ∈ combine_arrivals_departures [ar1500; ar1514] [ar1501; ar1551_blank]
     ∨ ∃ a, a ∈ [ar1500; ar1514] ∧ matricula a = matricula ar1501
            ∧ pareja a ar1501
              ∈ combine_arrivals_departures [ar1500; ar1514] [ar1501; ar1551_blank]).
Proof.
  assert (H1 : NoDup (matricula <$> ordinary_flights [ar1500; ar1514])) by computed.
  assert (H2 : NoDup (matricula <$> ordinary_flights [ar1501; ar1551_blank]))
    by computed.
  assert (H3 : ∀ f, f ∈ [ar1500; ar1514] ++ [ar1501; ar1551_blank] →
                    numero_vuelo f ∉ exception_vuelos →
                    matricula f ∉ matriculas
                      (exception_flights [ar1500; ar1514] [ar1501; ar1551_blank])).
  { intros f Hf Hord. simpl in Hf. each_of Hf; try computed.
    exfalso. apply Hord. computed. }
  destruct (no_flight_dropped _ _ H1 H2 H3) as (_ & HA & HD).
  split; [exact H1|]. split; [exact H2|]. split.
  - apply HA; [right; left|computed].
  - apply HD; [left|computed].
Defined.

Lemma paired_whatever_the_times_witness :
  (numero_vuelo ar1500 ∉ exception_vuelos)
  ∧ (numero_vuelo ar1501 ∉ exception_vuelos)
  ∧ matricula ar1501 = matricula ar1500
  ∧ combine_arrivals_departures [ar1500] [ar1501] = [pareja ar1500 ar1501].
Proof.
  assert (H1 : numero_vuelo ar1500 ∉ exception_vuelos) by computed.
  assert (H2 : numero_vuelo ar1501 ∉ exception_vuelos) by computed.
  assert (H3 : matricula ar1501 = matricula ar1500) by reflexivity.
  split; [exact H1|]. split; [exact H2|]. split; [exact H3|].
  exact (paired_whatever_the_times _ _ H1 H2 H3).
Defined.

Lemma row_sides_witness :
  (∀ a, a ∈ [ar1500] → tipo a = Llegada)
  ∧ (∀ d, d ∈ [ar1507; ar1501] → tipo d = Salida)
  ∧ pareja ar1500 ar1507 ∈ combine_arrivals_departures [ar1500] [ar1507; ar1501]
  ∧ ((∃ a, a ∈ [ar1500] ∧ muestra_llegada (pareja ar1500 ar1507) a)
     ∨ (∃ d, d ∈ [ar1507; ar1501] ∧ muestra_salida (pareja ar1500 ar1507) d)).
Proof.
  assert (H1 : ∀ a, a ∈ [ar1500] → tipo a = Llegada).
  { intros a Ha. each_of Ha. reflexivity. }
  assert (H2 : ∀ d, d ∈ [ar1507; ar1501] → tipo d = Salida).
  { intros d Hd. each_of Hd; reflexivity. }
  assert (H3 : pareja ar1500 ar1507
               ∈ combine_arrivals_departures [ar1500] [ar1507; ar1501]).
  { assert (combine_arrivals_departures [ar1500] [ar1507; ar1501]
            = [pareja ar1500 ar1507]) as -> by reflexivity. left. }
  split; [exact H1|]. split; [exact H2|]. split; [exact H3|].
  exact (proj2 (proj2 (row_sides _ _ _ H1 H2 H3))).
Defined.

Lemma extracted_records_witness :
  ar1234 ∈ process_flight_data hhmm_art [raw_ar1234] arrivals_t 1700000000 1700086400
  ∧ ∃ raw, raw ∈ [raw_ar1234]
           ∧ extracted_from hhmm_art arrivals_t 1700000000 1700086400 raw ar1234.
Proof.
  assert (H1 : ar1234 ∈ process_flight_data hhmm_art [raw_ar1234] arrivals_t
                          1700000000 1700086400).
  { assert (process_flight_data hhmm_art [raw_ar1234] arrivals_t 1700000000 1700086400
            = [ar1234]) as -> by (vm_compute; reflexivity). left. }
  split; [exact H1|]. exact (extracted_records _ _ _ _ _ _ H1).
Defined.

Lemma main_rows_trace_back_witness :
  main_core hhmm_art 1700000000 1700086400 [raw_ar1234] []
  = Some [sin_orden (solo_llegada ar1234)]
  ∧ sin_orden (solo_llegada ar1234) ∈ [sin_orden (solo_llegada ar1234)]
  ∧ (llegada (fila (sin_orden (solo_llegada ar1234))) ≠ ""
     ∨ salida (fila (sin_orden (solo_llegada ar1234))) ≠ "").
Proof.
  assert (H1 : main_core hhmm_art 1700000000 1700086400 [raw_ar1234] []
               = Some [sin_orden (solo_llegada ar1234)]) by (vm_compute; reflexivity).
  assert (H2 : sin_orden (solo_llegada ar1234) ∈ [sin_orden (solo_llegada ar1234)])
    by left.
  split; [exact H1|]. split; [exact H2|].
  exact (proj2 (proj2 (proj2 (main_rows_trace_back _ _ _ _ _ _ _ H1 H2)))).
Defined.

Lemma ordering_stable_witness :
  ordenar (sin_orden <$> [pareja ar1500 ar1507; solo_salida ar1501; solo_llegada ar1500])
  = Some (sin_orden <$> [pareja ar1500 ar1507; solo_llegada ar1500; solo_salida ar1501])
  ∧ filter (λ r, spec_sort_key r = "08:00")
           (fila <$> (sin_orden
                        <$> [pareja ar1500 ar1507; solo_llegada ar1500; solo_salida ar1501]))
    = filter (λ r, spec_sort_key r = "08:00")
             [pareja ar1500 ar1507; solo_salida ar1501; solo_llegada ar1500].
Proof.
  assert (H1 : ordenar (sin_orden
                 <$> [pareja ar1500 ar1507; solo_salida ar1501; solo_llegada ar1500])
               = Some (sin_orden
                 <$> [pareja ar1500 ar1507; solo_llegada ar1500; solo_salida ar1501]))
    by (vm_compute; reflexivity).
  split; [exact H1|]. exact (ordering_stable _ _ "08:00" H1).
Defined.

Lemma ordering_idempotent_witness :
  ordenar (sin_orden <$> [solo_salida ar1507; solo_llegada ar1500; solo_salida ar1501])
  = Some (sin_orden <$> [solo_llegada ar1500; solo_salida ar1501; solo_salida ar1507])
  ∧ ordenar (sin_orden <$> [solo_llegada ar1500; solo_salida ar1501; solo_salida ar1507])
    = Some (sin_orden <$> [solo_llegada ar1500; solo_salida ar1501; solo_salida ar1507]).
Proof.
  assert (H1 : ordenar (sin_orden
                 <$> [solo_salida ar1507; solo_llegada ar1500; solo_salida ar1501])
               = Some (sin_orden
                 <$> [solo_llegada ar1500; solo_salida ar1501; solo_salida ar1507]))
    by (vm_compute; reflexivity).
  split; [exact H1|]. exact (ordering_idempotent _ _ H1).
Defined.

Lemma fetch_returns_the_node_witness :
  JList [json_ar1234 aircraft_lv_fua; json_ar1234 JNull] ≠ JList []
  ∧ get_flight_data_from_fr24 (fetch_response 200 (Some payload_arrivals)) "arrivals"
    = JList [json_ar1234 aircraft_lv_fua; json_ar1234 JNull]
  ∧ ∃ data,
      fetch_response 200 (Some payload_arrivals) = fetch_response 200 (Some data)
      ∧ lookup_path (schedule_path "arrivals") data
        = Some (JList [json_ar1234 aircraft_lv_fua; json_ar1234 JNull])
      ∧ has_len (JList [json_ar1234 aircraft_lv_fua; json_ar1234 JNull]) = true.
Proof.
  assert (H1 : JList [json_ar1234 aircraft_lv_fua; json_ar1234 JNull] ≠ JList [])
    by discriminate.
  assert (H2 : get_flight_data_from_fr24 (fetch_response 200 (Some payload_arrivals))
                 "arrivals"
               = JList [json_ar1234 aircraft_lv_fua; json_ar1234 JNull])
    by (vm_compute; reflexivity).
  split; [exact H1|]. split; [exact H2|].
  exact (proj1 (fetch_returns_the_node _ _ _ H1) H2).
Defined.

Lemma fetch_failure_is_no_flights_witness :
  fetch_and_process hhmm_art (fetch_response 200 (Some payload_arrivals)) arrivals_t
    1700000000 1700086400 ≠ []
  ∧ ∃ data l,
      fetch_response 200 (Some payload_arrivals) = fetch_response 200 (Some data)
      ∧ lookup_path (schedule_path (flight_type_str arrivals_t)) data = Some (JList l)
      ∧ fetch_and_process hhmm_art (fetch_response 200 (Some payload_arrivals))
          arrivals_t 1700000000 1700086400
        = omap (process_flight_json hhmm_art arrivals_t 1700000000 1700086400) l.
Proof.
  assert (H1 : fetch_and_process hhmm_art (fetch_response 200 (Some payload_arrivals))
                 arrivals_t 1700000000 1700086400 ≠ []).
  { assert (fetch_and_process hhmm_art (fetch_response 200 (Some payload_arrivals))
              arrivals_t 1700000000 1700086400 = [to_json ar1234]) as ->
      by (vm_compute; reflexivity).
    discriminate. }
  split; [exact H1|]. exact (fetch_failure_is_no_flights _ _ _ _ _ H1).
Defined.

Lemma typed_extractor_agrees_witness :
  mapM (decode arrivals_t) [json_ar1234 aircraft_lv_fua] = Some [raw_ar1234_read]
  ∧ process_flight_data_json hhmm_art (JList [json_ar1234 aircraft_lv_fua]) arrivals_t
      1700000000 1700086400
    = to_json <$> process_flight_data hhmm_art [raw_ar1234_read] arrivals_t
                    1700000000 1700086400.
Proof.
  assert (H1 : mapM (decode arrivals_t) [json_ar1234 aircraft_lv_fua]
               = Some [raw_ar1234_read]) by (vm_compute; reflexivity).
  split; [exact H1|]. exact (typed_extractor_agrees _ _ _ _ _ _ H1).
Defined.

Lemma kept_flights_have_a_typed_reading_witness :
  process_flight_json hhmm_art arrivals_t 1700000000 1700086400
    (json_ar1234 aircraft_lv_fua) = Some (to_json ar1234)
  ∧ matricula_j (to_json ar1234) = JStr "LV-FUA"
  ∧ aeropuerto_j (to_json ar1234) = JStr "AEP"
  ∧ timestamp_j (to_json ar1234) = JInt 1700046000
  ∧ ∃ raw rec,
      decode arrivals_t (json_ar1234 aircraft_lv_fua) = Some raw
      ∧ process_flight hhmm_art arrivals_t 1700000000 1700086400 raw = Some rec
      ∧ to_json ar1234 = to_json rec.
Proof.
  assert (H1 : process_flight_json hhmm_art arrivals_t 1700000000 1700086400
                 (json_ar1234 aircraft_lv_fua) = Some (to_json ar1234))
    by (vm_compute; reflexivity).
  assert (H2 : matricula_j (to_json ar1234) = JStr "LV-FUA") by reflexivity.
  assert (H3 : aeropuerto_j (to_json ar1234) = JStr "AEP") by reflexivity.
  assert (H4 : timestamp_j (to_json ar1234) = JInt 1700046000) by reflexivity.
  split; [exact H1|]. split; [exact H2|]. split; [exact H3|]. split; [exact H4|].
  exact (kept_flights_have_a_typed_reading _ _ _ _ _ _ _ _ _ H1 H2 H3 H4).
Defined.

Lemma malformed_flight_is_skipped_witness :
  ["flight"; "aircraft"] ∈ walked_paths arrivals_t
  ∧ lookup_path ["flight"; "aircraft"] (json_ar1234 JNull) = Some JNull
  ∧ (∀ d, JNull ≠ JDict d)
  ∧ process_flight_json hhmm_art arrivals_t 1700000000 1700086400 (json_ar1234 JNull)
    = None.
Proof.
  assert (H1 : ["flight"; "aircraft"] ∈ walked_paths arrivals_t).
  { unfold walked_paths. do 6 right. left. }
  assert (H2 : lookup_path ["flight"; "aircraft"] (json_ar1234 JNull) = Some JNull)
    by reflexivity.
  assert (H3 : ∀ d, JNull ≠ JDict d) by discriminate.
  split; [exact H1|]. split; [exact H2|]. split; [exact H3|].
  exact (malformed_flight_is_skipped hhmm_art arrivals_t 1700000000 1700086400
           _ _ _ H1 H2 H3).
Defined.

Lemma kept_record_leaves_witness :
  process_flight_json hhmm_art arrivals_t 1700000000 1700086400
    (json_ar1234 aircraft_lv_fua) = Some (to_json ar1234)
  ∧ matricula_j (to_json ar1234)
    = leaf_or (JStr "") ["flight"; "aircraft"; "registration"]
        (json_ar1234 aircraft_lv_fua)
  ∧ ∃ t, seconds_of (timestamp_j (to_json ar1234)) = Some t
         ∧ 1700000000 ≤ t ≤ 1700086400.
Proof.
  assert (H1 : process_flight_json hhmm_art arrivals_t 1700000000 1700086400
                 (json_ar1234 aircraft_lv_fua) = Some (to_json ar1234))
    by (vm_compute; reflexivity).
  split; [exact H1|].
  destruct (kept_record_leaves _ _ _ _ _ _ H1) as (_ & Hm & _ & _ & Hw & _).
  split; [exact Hm|exact Hw].
Defined.

Lemma window_is_the_next_24_hours_witness :
  0 ≤ 1700000000123456
  ∧ 1700000000123456 + 24 * 3600 * 1000000 < 2 ^ 33 * 1000000
  ∧ int_timestamp (snd (get_time_range 1700000000123456))
    = int_timestamp (fst (get_time_range 1700000000123456)) + 86400.
Proof.
  assert (H1 : 0 ≤ 1700000000123456) by lia.
  assert (H2 : 1700000000123456 + 24 * 3600 * 1000000 < 2 ^ 33 * 1000000) by lia.
  split; [exact H1|]. split; [exact H2|].
  exact (proj1 (window_is_the_next_24_hours _ 1700086400 H1 H2)).
Defined.

Lemma listed_by_clock_time_witness :
  process_flight hhmm_art arrivals_t 1700000000 1700086400 raw_2350 = Some ar1512
  ∧ process_flight hhmm_art arrivals_t 1700000000 1700086400 raw_0010 = Some ar1514
  ∧ matricula ar1512 ≠ matricula ar1514
  ∧ timestamp ar1512 < timestamp ar1514
  ∧ String.ltb (hora ar1514) (hora ar1512) = true
  ∧ main_core hhmm_art 1700000000 1700086400 [raw_2350; raw_0010] []
    = Some [sin_orden (solo_llegada ar1514); sin_orden (solo_llegada ar1512)].
Proof.
  assert (H1 : process_flight hhmm_art arrivals_t 1700000000 1700086400 raw_2350
               = Some ar1512) by (vm_compute; reflexivity).
  assert (H2 : process_flight hhmm_art arrivals_t 1700000000 1700086400 raw_0010
               = Some ar1514) by (vm_compute; reflexivity).
  assert (H3 : matricula ar1512 ≠ matricula ar1514) by discriminate.
  assert (H4 : timestamp ar1512 < timestamp ar1514) by reflexivity.
  assert (H5 : String.ltb (hora ar1514) (hora ar1512) = true) by reflexivity.
  split; [exact H1|]. split; [exact H2|]. split; [exact H3|]. split; [exact H4|].
  split; [exact H5|].
  exact (listed_by_clock_time _ _ _ _ _ _ _ H1 H2 H3 H4 H5).
Defined.
